(** * build_wheels.py: assembling a wheel from the LilyPond binaries

    A shallow embedding of [build] of [build_wheels.py], from the point
    where the release archive has been unpacked and its top directory
    renamed to [lilypond-binaries] (line 56) to the end of the function.

    Modelling choices:
    - the unpacked directory [unpack_dest] is a tree of regular files and
      directories; the order of a directory's entry list is the order in
      which [os.scandir] reports them (symbolic links are left out);
    - text is held as its UTF-8 bytes, so a [string] is the byte string that
      [write_text(..., encoding="utf-8")] stores, and comparing two strings
      byte by byte is Python's comparison by code point; the host is POSIX
      (separator [/], no newline translation);
    - a time stamp is a number of seconds; the clock that stamps a file at
      its creation is a parameter of a run;
    - the zip file is the sequence of [(ZipInfo, bytes)] pairs handed to
      [writestr] under the name it is opened with: with a fixed deflate
      implementation its bytes are a function of that sequence. *)

From Stdlib Require Import ZArith List Bool Lia Arith.
From Stdlib.Strings Require Import String Ascii Byte.
From Stdlib Require Import Permutation Sorted DecimalString.
Import ListNotations.

Local Open Scope string_scope.
Local Open Scope list_scope.

Definition bytes := list byte.

(** [str.encode("utf-8")] on text already held as UTF-8. *)
Definition encode (s : string) : bytes := list_byte_of_string s.


(** [str(n)] for a non-negative [int]. *)
Definition str_of_nat (n : nat) : string :=
  NilZero.string_of_uint (Nat.to_uint n).

(** [str(z)] for an [int]. *)
Definition str_of_Z (z : Z) : string :=
  NilZero.string_of_int (Z.to_int z).

(** ** hashlib.sha256 (FIPS 180-4) *)

Module SHA256.
Local Open Scope Z_scope.

Definition w32 (x : Z) : Z := Z.land x 0xffffffff.
Definition add32 (x y : Z) : Z := w32 (x + y).
Definition not32 (x : Z) : Z := Z.lxor x 0xffffffff.
Definition rotr (n x : Z) : Z :=
  Z.lor (Z.shiftr x n) (w32 (Z.shiftl x (32 - n))).
Definition shr (n x : Z) : Z := Z.shiftr x n.

Definition Ch (x y z : Z) : Z :=
  Z.lxor (Z.land x y) (Z.land (not32 x) z).
Definition Maj (x y z : Z) : Z :=
  Z.lxor (Z.lxor (Z.land x y) (Z.land x z)) (Z.land y z).
Definition Sigma0 (x : Z) : Z :=
  Z.lxor (Z.lxor (rotr 2 x) (rotr 13 x)) (rotr 22 x).
Definition Sigma1 (x : Z) : Z :=
  Z.lxor (Z.lxor (rotr 6 x) (rotr 11 x)) (rotr 25 x).
Definition sigma0 (x : Z) : Z :=
  Z.lxor (Z.lxor (rotr 7 x) (rotr 18 x)) (shr 3 x).
Definition sigma1 (x : Z) : Z :=
  Z.lxor (Z.lxor (rotr 17 x) (rotr 19 x)) (shr 10 x).

(** The constants are defined as FIPS 180-4 defines them: the first 32 bits
    of the fractional parts of the cube roots ([K]) and of the square roots
    ([H0]) of the first primes. *)

Definition is_prime (p : Z) : bool :=
  forallb (fun d => negb (p mod d =? 0)) (map Z.of_nat (seq 2 (Z.to_nat p - 2))).

Definition primes : list Z :=
  Eval vm_compute in filter is_prime (map Z.of_nat (seq 2 310)).

(** The largest [r] below [2 ^ bits] with [r ^ 3 <= n]. *)
Fixpoint cube_root (bits : nat) (n r : Z) : Z :=
  match bits with
  | O => r
  | S b =>
      let r' := r + 2 ^ Z.of_nat b in
      cube_root b n (if r' * r' * r' <=? n then r' else r)
  end.

Definition K : list Z :=
  Eval vm_compute in
    map (fun p => w32 (cube_root 40 (p * 2 ^ 96) 0)) primes.

Definition H0 : list Z :=
  Eval vm_compute in
    map (fun p => w32 (Z.sqrt (p * 2 ^ 64))) (firstn 8 primes).

(** The [n] low bytes of [x], most significant first. *)
Fixpoint be_bytes (n : nat) (x : Z) : list Z :=
  match n with
  | O => []
  | S n' => Z.land (Z.shiftr x (8 * Z.of_nat n')) 0xff :: be_bytes n' x
  end.

Definition pad (msg : list Z) : list Z :=
  let len := Z.of_nat (List.length msg) in
  msg ++ [0x80] ++ repeat 0 (Z.to_nat ((55 - len) mod 64))
      ++ be_bytes 8 (8 * len).

Fixpoint be_words (n : nat) (l : list Z) : list Z :=
  match n, l with
  | S n', a :: b :: c :: d :: l' =>
      Z.lor (Z.shiftl a 24) (Z.lor (Z.shiftl b 16) (Z.lor (Z.shiftl c 8) d))
        :: be_words n' l'
  | _, _ => []
  end.

(** The message schedule, latest word first. *)
Fixpoint schedule (n : nat) (r : list Z) : list Z :=
  match n with
  | O => r
  | S n' =>
      let w := add32 (add32 (sigma1 (nth 1 r 0)) (nth 6 r 0))
                     (add32 (sigma0 (nth 14 r 0)) (nth 15 r 0)) in
      schedule n' (w :: r)
  end.

Definition round (s : list Z) (kw : Z * Z) : list Z :=
  match s with
  | [a; b; c; d; e; f; g; h] =>
      let t1 := add32 (add32 (add32 h (Sigma1 e)) (add32 (Ch e f g) (fst kw)))
                      (snd kw) in
      let t2 := add32 (Sigma0 a) (Maj a b c) in
      [add32 t1 t2; a; b; c; add32 d t1; e; f; g]
  | _ => s
  end.

Definition compress (h : list Z) (block : list Z) : list Z :=
  let w := rev (schedule 48 (rev (be_words 16 block))) in
  let s := fold_left round (combine K w) h in
  map (fun p => add32 (fst p) (snd p)) (combine h s).

Fixpoint blocks (n : nat) (l : list Z) : list (list Z) :=
  match n with
  | O => []
  | S n' => firstn 64 l :: blocks n' (skipn 64 l)
  end.

Definition digest (msg : list Z) : list Z :=
  let m := pad msg in
  let h := fold_left compress (blocks (List.length m / 64) m) H0 in
  flat_map (be_bytes 4) h.

Definition hex_digit (x : Z) : ascii :=
  nth (Z.to_nat x)
      ["0"; "1"; "2"; "3"; "4"; "5"; "6"; "7";
       "8"; "9"; "a"; "b"; "c"; "d"; "e"; "f"]%char "0"%char.

Fixpoint hex (l : list Z) : string :=
  match l with
  | [] => EmptyString
  | x :: l' =>
      String (hex_digit (Z.shiftr x 4))
        (String (hex_digit (Z.land x 0xf)) (hex l'))
  end.

(** [hashlib.sha256(contents).hexdigest()] *)
Definition hexdigest (contents : bytes) : string :=
  hex (digest (map (fun b => Z.of_N (Byte.to_N b)) contents)).

Example hexdigest_empty :
  hexdigest [] =
  "e3b0c44298fc1c149afbf4c8996fb92427ae41e4649b934ca495991b7852b855"%string.
Proof. vm_compute. reflexivity. Qed.

Example hexdigest_abc :
  hexdigest (encode "abc") =
  "ba7816bf8f01cfea414140de5dae2223b00361a396177a9cb410ff61f20015ad"%string.
Proof. vm_compute. reflexivity. Qed.

Example hexdigest_two_blocks :
  hexdigest
    (encode "abcdbcdecdefdefgefghfghighijhijkijkljklmklmnlmnomnopnopq") =
  "248d6a61d20638b8e5c026930c3e6039a33ce45964ff2167f6ecedd419db06c1"%string.
Proof. vm_compute. reflexivity. Qed.
End SHA256.

(** ** Paths

    A [Path] is held as the string it was built from; [parts] is
    [PurePosixPath.parts] for a relative path: the components between the
    separators, without the empty ones and the [.] ones. *)

Definition is_sep (c : ascii) : bool := (c =? "/")%char.

Fixpoint split (s : string) : list string :=
  match s with
  | EmptyString => [EmptyString]
  | String c s' =>
      if is_sep c then EmptyString :: split s'
      else match split s' with
           | w :: ws => String c w :: ws
           | [] => [String c EmptyString]
           end
  end.

Definition is_part (w : string) : bool := negb (w =? "") && negb (w =? ".").

Definition parts (s : string) : list string := filter is_part (split s).

(** [str] of the path made of the components [ps]. *)
Fixpoint join (ps : list string) : string :=
  match ps with
  | [] => "."
  | [p] => p
  | p :: ps' => p ++ "/" ++ join ps'
  end.

Fixpoint is_prefix (p l : list string) : bool :=
  match p, l with
  | [], _ => true
  | x :: p', y :: l' => (x =? y) && is_prefix p' l'
  | _ :: _, [] => false
  end.

(** [Path(filename).is_relative_to(other)] *)
Definition is_relative_to (filename other : string) : bool :=
  is_prefix (parts other) (parts filename).

(** ** The directory tree under [unpack_dest] *)

Record stat_result := { st_mode : Z; st_mtime : Z }.

#[warnings="-register-all"]
Inductive node :=
| File (st : stat_result) (data : bytes)
| Dir (entries : list (string * node)).

Definition dir := list (string * node).

Inductive exn :=
| AssertionError
| FileExistsError
| FileNotFoundError
| NotADirectoryError
| IsADirectoryError.

Inductive result (A : Type) :=
| Ok (a : A)
| Raise (e : exn).
Arguments Ok {A} a.
Arguments Raise {A} e.

Definition rbind {A B} (r : result A) (k : A -> result B) : result B :=
  match r with
  | Ok a => k a
  | Raise e => Raise e
  end.

Definition lookup (name : string) (es : dir) : option node :=
  option_map snd (find (fun e => fst e =? name) es).

(** The entries of the directory at [path], when there is one. *)
Fixpoint get_dir (path : list string) (es : dir) : option dir :=
  match path with
  | [] => Some es
  | d :: path' =>
      match lookup d es with
      | Some (Dir sub) => get_dir path' sub
      | _ => None
      end
  end.

(** Replace the entry [name] of a directory by [f] of it. *)
Fixpoint modify_entry (name : string) (f : node -> result node) (es : dir)
  : result dir :=
  match es with
  | [] => Raise FileNotFoundError
  | (n, x) :: es' =>
      if n =? name then rbind (f x) (fun x' => Ok ((n, x') :: es'))
      else rbind (modify_entry name f es') (fun r => Ok ((n, x) :: r))
  end.

(** Run [op] on the directory at [path]. *)
Fixpoint in_dir (path : list string) (op : dir -> result dir) (es : dir)
  : result dir :=
  match path with
  | [] => op es
  | d :: path' =>
      modify_entry d
        (fun x => match x with
                  | Dir sub => rbind (in_dir path' op sub) (fun s => Ok (Dir s))
                  | File _ _ => Raise NotADirectoryError
                  end) es
  end.

(** [Path.mkdir()] of a new entry [name]. *)
Definition mkdir_entry (name : string) (es : dir) : result dir :=
  match lookup name es with
  | Some _ => Raise FileExistsError
  | None => Ok (es ++ [(name, Dir [])])
  end.

(** [Path.write_text]/[open(..., "w")] and [write]: the entry [name] becomes a
    file holding [data], stamped [t]; a file that exists keeps its mode. *)
Fixpoint write_entry (mode t : Z) (name : string) (data : bytes) (es : dir)
  : result dir :=
  match es with
  | [] => Ok [(name, File {| st_mode := mode; st_mtime := t |} data)]
  | (n, x) :: es' =>
      if n =? name then
        match x with
        | File st _ =>
            Ok ((n, File {| st_mode := st_mode st; st_mtime := t |} data) :: es')
        | Dir _ => Raise IsADirectoryError
        end
      else rbind (write_entry mode t name data es') (fun r => Ok ((n, x) :: r))
  end.

(** [Path.touch()]: an entry that exists gets a new time stamp (a directory
    carries none here), otherwise an empty file is created. *)
Fixpoint touch_entry (mode t : Z) (name : string) (es : dir) : dir :=
  match es with
  | [] => [(name, File {| st_mode := mode; st_mtime := t |} [])]
  | (n, x) :: es' =>
      if n =? name then
        match x with
        | File st data =>
            (n, File {| st_mode := st_mode st; st_mtime := t |} data) :: es'
        | Dir _ => (n, x) :: es'
        end
      else (n, x) :: touch_entry mode t name es'
  end.

(** [Path.glob] for a prefix followed by a star, in the directory at [path]: the names of its
    entries, of either kind, that start with [prefix]; nothing when [path] is
    no directory. *)
Definition glob (path : list string) (pfx : string) (es : dir) : list string :=
  match get_dir path es with
  | Some sub => filter (String.prefix pfx) (map fst sub)
  | None => []
  end.

(** [os.walk]: top-down, the files of a directory before those of its
    sub-directories; each file with its path relative to the top. *)
Fixpoint walk_node (dirpath : list string) (n : node)
  : list (list string * stat_result * bytes) :=
  match n with
  | File _ _ => []
  | Dir es =>
      flat_map (fun e => match snd e with
                         | File st data => [(dirpath ++ [fst e], st, data)]
                         | Dir _ => []
                         end) es
      ++ flat_map (fun e => walk_node (dirpath ++ [fst e]) (snd e)) es
  end.

Definition walk (es : dir) : list (list string * stat_result * bytes) :=
  walk_node [] (Dir es).

(** ** zipfile.ZipInfo *)

Record ZipInfo := {
  filename : string;
  date_time : Z;
  external_attr : Z;
  file_size : nat
}.

Definition member := (ZipInfo * bytes)%type.

(** [ZipInfo.from_file(path, relpath)] for a regular file with status [st]. *)
Definition from_file (relpath : list string) (st : stat_result) (data : bytes)
  : ZipInfo :=
  {| filename := join relpath;
     date_time := st_mtime st;
     external_attr := Z.shiftl (Z.land (st_mode st) 0xFFFF) 16;
     file_size := List.length data |}.

(** ** csv.writer, excel dialect *)

Definition dquote : ascii := "034"%char.
Definition CR : ascii := "013"%char.
Definition LF : ascii := "010"%char.
Definition comma : ascii := ","%char.

Definition special (c : ascii) : bool :=
  (c =? comma)%char || (c =? dquote)%char || (c =? CR)%char || (c =? LF)%char.

Fixpoint needs_quotes (f : string) : bool :=
  match f with
  | EmptyString => false
  | String c f' => special c || needs_quotes f'
  end.

Fixpoint double_quotes (f : string) : string :=
  match f with
  | EmptyString => EmptyString
  | String c f' =>
      if (c =? dquote)%char then String dquote (String dquote (double_quotes f'))
      else String c (double_quotes f')
  end.

Definition csv_field (f : string) : string :=
  if needs_quotes f
  then String dquote (double_quotes f ++ String dquote EmptyString)
  else f.

Definition lineterminator : string := String CR (String LF EmptyString).

Definition row := (string * string * string)%type.

(** [writer.writerow(row)] for a row of three fields. *)
Definition writerow (r : row) : string :=
  let '(a, b, c) := r in
  csv_field a ++ "," ++ csv_field b ++ "," ++ csv_field c ++ lineterminator.

Definition writerows (rows : list row) : string :=
  String.concat "" (map writerow rows).

(** ** list.sort(key=...)

    Python's sort is stable; insertion from the right is the stable sort
    written as a structural recursion. *)

Section Sort.
Context {A K : Type} (le : K -> K -> bool) (key : A -> K).

Fixpoint insert (x : A) (l : list A) : list A :=
  match l with
  | [] => [x]
  | y :: l' => if le (key x) (key y) then x :: l else y :: insert x l'
  end.

Fixpoint sort (l : list A) : list A :=
  match l with
  | [] => []
  | x :: l' => insert x (sort l')
  end.
End Sort.

(** ** The state of a run and its monad

    [fs] is the tree under [unpack_dest], [ticks] counts the writes to the
    file system so far (the clock stamps the n-th write), and [written]
    lists the zip files written under [workdir], each under the path it was
    opened with and as its sequence of members. *)

Record world := {
  fs : dir;
  ticks : nat;
  written : list (string * list member)
}.

Definition M (A : Type) := world -> result A * world.

Definition ret {A} (a : A) : M A := fun w => (Ok a, w).

Definition raise {A} (e : exn) : M A := fun w => (Raise e, w).

Definition bind {A B} (m : M A) (k : A -> M B) : M B :=
  fun w => match m w with
           | (Ok a, w') => k a w'
           | (Raise e, w') => (Raise e, w')
           end.

Notation "x <- m ;; k" := (bind m (fun x => k))
  (at level 61, m at next level, right associativity).
Notation "m ;; k" := (bind m (fun _ => k))
  (at level 61, right associativity).

(** [assert b] *)
Definition assert (b : bool) : M unit :=
  if b then ret tt else raise AssertionError.

Definition fs_read {A} (f : dir -> A) : M A := fun w => (Ok (f (fs w)), w).

Record Namespace := { version : string; build_number : Z }.

Section Build.
Local Open Scope string_scope.

(** The host: the time of the n-th write to the file system and the mode
    a new regular file gets. *)
Variable clock : nat -> Z.
Variable file_mode : Z.

(** The parsed command line and the text of [README.md]. *)
Variable args : Namespace.
Variable README : string.

(** A write to the file system: [f] gets the time of the write. *)
Definition fs_write (f : Z -> dir -> result dir) : M unit :=
  fun w =>
    match f (clock (ticks w)) (fs w) with
    | Ok es => (Ok tt, {| fs := es; ticks := S (ticks w); written := written w |})
    | Raise e => (Raise e, w)
    end.

Definition touch (path : list string) (name : string) : M unit :=
  fs_write (fun t => in_dir path (fun es => Ok (touch_entry file_mode t name es))).

Definition mkdir (path : list string) (name : string) : M unit :=
  fs_write (fun _ => in_dir path (mkdir_entry name)).

Definition write_text (path : list string) (name : string) (text : string)
  : M unit :=
  fs_write (fun t => in_dir path (write_entry file_mode t name (encode text))).

(** [ZipInfo.from_file(p, rel)] and [p.read_bytes()] for the file [name]
    of the directory at [path]. *)
Definition read_member (path : list string) (name : string) : M member :=
  fun w =>
    match get_dir path (fs w) with
    | Some es =>
        match lookup name es with
        | Some (File st data) => (Ok (from_file (path ++ [name])%list st data, data), w)
        | Some (Dir _) => (Raise IsADirectoryError, w)
        | None => (Raise FileNotFoundError, w)
        end
    | None => (Raise FileNotFoundError, w)
    end.

(** [with zipfile.ZipFile(name, "w") as z: for info, contents in members:
    z.writestr(info, contents, ZIP_DEFLATED)] *)
Definition zip_write (name : string) (members : list member) : M unit :=
  fun w => (Ok tt, {| fs := fs w; ticks := ticks w;
                      written := (written w ++ [(name, members)])%list |}).

Definition dist_info_basename : string :=
  "lilypond-" ++ version args ++ ".dist-info".

Definition LF1 : string := String LF EmptyString.

Definition metadata_contents : string :=
  "Metadata-Version: 2.1" ++ LF1 ++
  "Name: lilypond" ++ LF1 ++
  "Version: " ++ version args ++ LF1 ++
  "Home-page: https://gitlab.com/jeanas/lilypond-wheels.git" ++ LF1 ++
  "License: GPL-3.0-or-later" ++ LF1 ++
  "Summary: A redistribution of LilyPond to use it easily from Python code."
    ++ LF1 ++
  "Description-Content-Type: text/markdown" ++ LF1 ++
  LF1 ++
  README ++ LF1.

Definition wheel_contents (full_tag : string) : string :=
  "Wheel-Version: 1.0" ++ LF1 ++
  "Generator: lilypond_custom_generator" ++ LF1 ++
  "Root-Is-Purelib: false" ++ LF1 ++
  "Tag: " ++ full_tag ++ LF1 ++
  "Build: " ++ str_of_Z (build_number args) ++ LF1.

Definition module_contents : string :=
  LF1 ++
  "from pathlib import Path" ++ LF1 ++
  LF1 ++
  "def executable(script=" ++ String dquote "lilypond" ++ String dquote "):"
    ++ LF1 ++
  "    return Path(__file__).parent / " ++ String dquote "lilypond-binaries"
    ++ String dquote " / " ++ String dquote "bin" ++ String dquote " / script"
    ++ LF1.

(** The loop over [os.walk(unpack_dest)]: [members] and [record_tuples]. *)
Definition collect_members (es : dir) : list member :=
  map (fun f => let '(relpath, st, data) := f in
                (from_file relpath st data, data)) (walk es).

Definition record_tuple (relpath : list string) (info : ZipInfo)
           (contents : bytes) : row :=
  (join relpath, "sha256=" ++ SHA256.hexdigest contents,
   str_of_nat (file_size info)).

Definition collect_record_tuples (es : dir) : list row :=
  map (fun f => let '(relpath, st, data) := f in
                record_tuple relpath (from_file relpath st data) data)
      (walk es).

Definition prio (info_contents : member) : nat :=
  let '(info, _) := info_contents in
  if is_relative_to (filename info) dist_info_basename then 2
  else if is_relative_to (filename info) "lilypond-binaries/lib/" then 1
  else 0.

Definition wheel_file (full_tag : string) : string :=
  "lilypond-" ++ version args ++ "-" ++ str_of_Z (build_number args)
    ++ "-" ++ full_tag ++ ".whl".

(** [build], from line 56 on. *)
Definition build (plat plat_tag : string) : M unit :=
  let full_tag := "py3-none-" ++ plat_tag in
  (if (plat =? "linux") || (plat =? "macos") then
     lib_python_dirs <- fs_read (glob ["lilypond-binaries"; "lib"] "python") ;;
     assert (List.length lib_python_dirs =? 1)%nat ;;
     let empty := ["lilypond-binaries"; "lib"; nth 0 lib_python_dirs "";
                   "lib-dynload"] in
     touch empty ".keep"
   else ret tt) ;;
  let dist_info := [dist_info_basename] in
  mkdir [] dist_info_basename ;;
  write_text dist_info "METADATA" metadata_contents ;;
  write_text dist_info "WHEEL" (wheel_contents full_tag) ;;
  write_text [] "lilypond.py" module_contents ;;
  members <- fs_read collect_members ;;
  record_tuples <- fs_read collect_record_tuples ;;
  write_text dist_info "RECORD" (writerows record_tuples) ;;
  record <- read_member dist_info "RECORD" ;;
  let members := (members ++ [record])%list in
  let members := sort String.leb (fun ic : member => filename (fst ic)) members in
  let members := sort Nat.leb prio members in
  zip_write (wheel_file full_tag) members.

(** Lines 56 to 61 on their own: the placeholder in the empty directory. *)
Definition keep_step (plat : string) : M unit :=
  if (plat =? "linux") || (plat =? "macos") then
    lib_python_dirs <- fs_read (glob ["lilypond-binaries"; "lib"] "python") ;;
    assert (List.length lib_python_dirs =? 1)%nat ;;
    touch ["lilypond-binaries"; "lib"; nth 0 lib_python_dirs ""; "lib-dynload"]
          ".keep"
  else ret tt.

(** Lines 134 and 149 on their own: the two sorts. *)
Definition ordered (members : list member) : list member :=
  sort Nat.leb prio
       (sort String.leb (fun ic : member => filename (fst ic)) members).
End Build.

(** ** A small run

    A tree as the Linux archive unpacks to, cut down to a few files, and
    the run of [build] on it. *)

Module Sample.
Definition st0 : stat_result := {| st_mode := 33261; st_mtime := 1000 |}.

Definition tree : dir :=
  [("lilypond-binaries",
    Dir [("bin", Dir [("lilypond", File st0 (encode "ELF"))]);
         ("lib",
          Dir [("python3.10",
                Dir [("lib-dynload", Dir []);
                     ("os.py", File st0 (encode "import sys"))]);
               ("libfoo", File st0 (encode "x,y"))]);
         ("share",
          Dir [("a-b", File st0 []);
               ("a", Dir [("b", File st0 [])])])])].

Definition w0 : world := {| fs := tree; ticks := 0; written := [] |}.

Definition args : Namespace := {| version := "2.24.3"; build_number := 1 |}.

Definition clock (n : nat) : Z := 2000 + Z.of_nat n.

Definition run (clk : nat -> Z) (plat plat_tag : string) : result unit * world :=
  build clk 33188 args "Hello" plat plat_tag w0.

Definition linux : result unit * world :=
  run clock "linux" "manylinux2014_x86_64".
End Sample.

(** ** csv.reader, excel dialect

    The state machine of [_csv.c] run over the whole text: a line of the file
    ends after LF, after CR LF, or after a CR that no LF follows. *)













(** ** Names

    A name of a directory entry is not empty, is not [.] and holds no
    separator. *)

Fixpoint no_slash (s : string) : bool :=
  match s with
  | EmptyString => true
  | String c s' => negb (is_sep c) && no_slash s'
  end.

Definition valid_name (n : string) : bool := is_part n && no_slash n.

(** ** The manifest and the state a run leaves

    [manifest_entry] is the tuple of lines 116 and 117 read off a member;
    [keeps_written] and [raises_keep] say that a computation, or a
    computation that raises, leaves the zip files written as they were. *)

Definition manifest_entry (m : member) : row :=
  (filename (fst m), "sha256=" ++ SHA256.hexdigest (snd m),
   str_of_nat (List.length (snd m)))%string.



(** ** More runs

    A tree with nothing in it, as after unpacking an empty archive. *)

Module Cases.
Definition bare : world := {| fs := []; ticks := 0; written := [] |}.

Definition run (plat plat_tag : string) (w : world) : result unit * world :=
  build Sample.clock 33188 Sample.args "Hello" plat plat_tag w.

(** A tree that already holds a dist-info directory of the version built. *)
Definition stale : world :=
  {| fs := [("lilypond-2.24.3.dist-info", Dir [])]; ticks := 0; written := [] |}.

(** The only entry [python*] is a regular file. *)
Definition python_file : world :=
  {| fs := [("lilypond-binaries",
             Dir [("lib", Dir [("python.txt", File Sample.st0 [])])])];
     ticks := 0; written := [] |}.

(** The directory of the interpreter has no [lib-dynload]. *)
Definition no_dynload : world :=
  {| fs := [("lilypond-binaries",
             Dir [("lib", Dir [("python3.10", Dir [])])])];
     ticks := 0; written := [] |}.

(** Two members, for the two sorts on their own. *)
Definition member_a : member := (from_file ["notes.txt"] Sample.st0 [], []).

Definition member_b : member :=
  (from_file ["lilypond-binaries"; "lib"; "libfoo"] Sample.st0 [], []).
End Cases.

(** ** The script

    Lines 161 to 181: the three calls of [build], one after the other. What
    the download, the unpacking and the renaming of lines 43 to 54 leave
    under [workdir / plat] is a parameter, [unpacked plat]. *)

Section Script.
Variable clock : nat -> Z.
Variable file_mode : Z.
Variable args : Namespace.
Variable README : string.
Variable unpacked : string -> dir.

(** Lines 43 to 54, then the rest of [build], for one platform. *)
Definition build_platform (plat plat_tag : string) : M unit :=
  fun w =>
    build clock file_mode args README plat plat_tag
          {| fs := unpacked plat; ticks := ticks w; written := written w |}.

Definition script : M unit :=
  build_platform "linux" "manylinux2014_x86_64" ;;
  build_platform "windows" "win_amd64" ;;
  build_platform "macos" "macosx_10_15_x86_64".

End Script.

(** The script on the small trees: the Linux tree for linux and macos, an
    empty one for windows. *)
Definition sample_script : result unit * world :=
  script Sample.clock 33188 Sample.args "Hello"
         (fun plat => if plat =? "windows" then [] else Sample.tree)
         Sample.w0.

(** What the walk meets through one entry of a directory. *)
Definition entry_items (pre : list string) (e : string * node)
  : list (list string * stat_result * bytes) :=
  match snd e with
  | File st data => [(pre ++ [fst e], st, data)]
  | Dir _ => walk_node (pre ++ [fst e]) (snd e)
  end.

(** ** Well-formed trees

    In every directory the names are valid and no two entries share one. *)

Fixpoint distinct (l : list string) : bool :=
  match l with
  | [] => true
  | x :: l' => negb (existsb (String.eqb x) l') && distinct l'
  end.

Fixpoint wf (n : node) : bool :=
  match n with
  | File _ _ => true
  | Dir es =>
      distinct (map fst es)
      && forallb (fun e => valid_name (fst e) && wf (snd e)) es
  end.

(** The path of an item of the walk. *)
Definition item_path (i : list string * stat_result * bytes) : list string :=
  fst (fst i).

(** ** Forgetting the time stamps *)










(** * Properties *)

(** ** The stable sort *)

Section SortFacts.
Context {A K : Type} (le : K -> K -> bool) (key : A -> K).
Hypothesis le_total : forall a b, le a b = true \/ le b a = true.
Hypothesis le_trans :
  forall a b c, le a b = true -> le b c = true -> le a c = true.

Definition key_le (a b : A) : Prop := le (key a) (key b) = true.

(** [a] may stand before [b]: its key is not larger, and where the keys
    are equivalent the two are in the order [R]. *)
Definition refines (R : A -> A -> Prop) (a b : A) : Prop :=
  key_le a b /\ (key_le b a -> R a b).

Lemma insert_perm x l : Permutation (x :: l) (insert le key x l).
Proof.
  induction l as [|y l IH]; simpl; [reflexivity|].
  destruct (le (key x) (key y)); [reflexivity|].
  rewrite perm_swap. now apply perm_skip.
Qed.

Lemma sort_perm l : Permutation l (sort le key l).
Proof.
  induction l as [|x l IH]; simpl; [constructor|].
  rewrite <- insert_perm. now apply perm_skip.
Qed.

Lemma insert_refines R x l :
  Forall (R x) l ->
  StronglySorted (refines R) l ->
  StronglySorted (refines R) (insert le key x l).
Proof.
  intros HR Hs. induction Hs as [|y l Hs IH Hy]; simpl.
  - repeat constructor.
  - inversion HR as [|? ? HRy HRl]; subst.
    destruct (le (key x) (key y)) eqn:E.
    + constructor; [now constructor|].
      constructor; [split; [exact E | auto]|].
      rewrite Forall_forall in *. intros z Hz.
      destruct (Hy z Hz) as [Hyz _].
      split; [now apply le_trans with (key y) | auto].
    + constructor; [now apply IH|].
      apply (Permutation_Forall (insert_perm x l)).
      constructor; [|exact Hy].
      split.
      * destruct (le_total (key x) (key y)) as [H|H]; [congruence | exact H].
      * unfold key_le. congruence.
Qed.

(** Stability: sorting a list that is in the order [R] leaves elements
    with equivalent keys in the order [R]. *)
Lemma sort_refines R l :
  StronglySorted R l -> StronglySorted (refines R) (sort le key l).
Proof.
  induction 1 as [|x l Hs IH Hx]; simpl; [constructor|].
  apply insert_refines; [|exact IH].
  now apply (Permutation_Forall (sort_perm l)).
Qed.

Lemma sort_sorted l : StronglySorted key_le (sort le key l).
Proof.
  assert (H : StronglySorted (fun _ _ => True) l).
  { induction l; constructor; [assumption|]. now apply Forall_forall. }
  apply (sort_refines _ _) in H.
  induction H as [|x s Hs IH Hx]; constructor; [assumption|].
  eapply Forall_impl; [|exact Hx]. now intros a [Ha _].
Qed.

Lemma insert_head x l :
  match l with [] => True | y :: _ => key_le x y end ->
  insert le key x l = x :: l.
Proof.
  destruct l as [|y l]; simpl; [reflexivity|].
  unfold key_le. now intros ->.
Qed.

Lemma insert_app x l1 l2 :
  Forall (fun y => le (key x) (key y) = false) l1 ->
  insert le key x (l1 ++ l2) = l1 ++ insert le key x l2.
Proof.
  induction 1 as [|y l1 Hy _ IH]; simpl; [reflexivity|].
  now rewrite Hy, IH.
Qed.

(** Sorting commutes with taking a sub-sequence by a predicate. *)
Lemma filter_insert p x l :
  StronglySorted key_le l ->
  filter p (insert le key x l) =
  if p x then insert le key x (filter p l) else filter p l.
Proof.
  induction 1 as [|y l Hs IH Hy]; simpl.
  - now destruct (p x).
  - destruct (le (key x) (key y)) eqn:E; simpl.
    + destruct (p x) eqn:Px; [|reflexivity].
      destruct (p y) eqn:Py.
      * simpl. now rewrite E.
      * symmetry. apply insert_head.
        destruct (filter p l) as [|z f] eqn:Ef; [exact I|].
        assert (Hz : In z (filter p l)) by (rewrite Ef; now left).
        apply filter_In in Hz. destruct Hz as [Hz _].
        rewrite Forall_forall in Hy.
        now apply le_trans with (key y); [|apply Hy].
    + rewrite IH. destruct (p x), (p y); simpl; try reflexivity.
      now rewrite E.
Qed.

Lemma filter_sort p l :
  filter p (sort le key l) = sort le key (filter p l).
Proof.
  induction l as [|x l IH]; simpl; [reflexivity|].
  rewrite filter_insert by apply sort_sorted.
  destruct (p x); simpl; now rewrite IH.
Qed.
End SortFacts.

Lemma StronglySorted_nth {A} (R : A -> A -> Prop) l :
  StronglySorted R l ->
  forall i j a b,
    (i < j)%nat -> nth_error l i = Some a -> nth_error l j = Some b -> R a b.
Proof.
  induction 1 as [|x l Hs IH Hx]; intros i j a b Hij Ha Hb.
  - now destruct i.
  - destruct j as [|j]; [lia|]. simpl in Hb.
    destruct i as [|i]; simpl in Ha.
    + injection Ha as <-. rewrite Forall_forall in Hx.
      apply Hx. eapply nth_error_In; eassumption.
    + apply (IH i j); [lia | assumption | assumption].
Qed.

(** A stable sort on a key in [{0, 1, 2}] lays the three buckets one after
    the other, each in the order it had. *)
Lemma sort_buckets {A} (key : A -> nat) (l : list A) :
  (forall a, key a <= 2)%nat ->
  sort Nat.leb key l =
  filter (fun a => key a =? 0)%nat l ++ filter (fun a => key a =? 1)%nat l
    ++ filter (fun a => key a =? 2)%nat l.
Proof.
  intros Hk. induction l as [|x l IH]; simpl; [reflexivity|].
  rewrite IH.
  set (f0 := filter (fun a => key a =? 0)%nat l).
  set (f1 := filter (fun a => key a =? 1)%nat l).
  set (f2 := filter (fun a => key a =? 2)%nat l).
  assert (H0 : Forall (fun y => key y = 0%nat) f0).
  { apply Forall_forall. intros y Hy. apply filter_In in Hy.
    now apply Nat.eqb_eq. }
  assert (H1 : Forall (fun y => key y = 1%nat) f1).
  { apply Forall_forall. intros y Hy. apply filter_In in Hy.
    now apply Nat.eqb_eq. }
  assert (H2 : Forall (fun y => key y = 2%nat) f2).
  { apply Forall_forall. intros y Hy. apply filter_In in Hy.
    now apply Nat.eqb_eq. }
  assert (Hhead : forall (n : nat) (s : list A),
             Forall (fun y => n <= key y)%nat s ->
             key x = n -> insert Nat.leb key x s = x :: s).
  { intros n s Hs Hx. apply insert_head.
    destruct s as [|y s]; [exact I|]. inversion Hs; subst.
    unfold key_le. now apply Nat.leb_le. }
  assert (Hskip : forall (n : nat) (s : list A),
             Forall (fun y => key y = n) s -> (n < key x)%nat ->
             Forall (fun y => Nat.leb (key x) (key y) = false) s).
  { intros n s Hs Hx. eapply Forall_impl; [|exact Hs].
    intros y Hy. simpl in Hy. apply Nat.leb_gt. lia. }
  assert (Hx : (key x = 0 \/ key x = 1 \/ key x = 2)%nat)
    by (pose proof (Hk x); lia).
  destruct Hx as [E|[E|E]]; rewrite E; simpl.
  - apply (Hhead 0%nat); [|exact E].
    apply Forall_forall. intros; lia.
  - rewrite insert_app by (apply (Hskip 0%nat); [exact H0 | lia]).
    f_equal. apply (Hhead 1%nat); [|exact E].
    apply Forall_app. split; eapply Forall_impl; try eassumption;
      simpl; intros; lia.
  - rewrite insert_app by (apply (Hskip 0%nat); [exact H0 | lia]).
    f_equal.
    rewrite insert_app by (apply (Hskip 1%nat); [exact H1 | lia]).
    f_equal. apply (Hhead 2%nat); [|exact E].
    eapply Forall_impl; [|exact H2]. simpl; intros; lia.
Qed.

(** ** The order of strings *)

Lemma N_of_ascii_inj a b : N_of_ascii a = N_of_ascii b -> a = b.
Proof.
  intros H. rewrite <- (ascii_N_embedding a), <- (ascii_N_embedding b).
  now rewrite H.
Qed.

Lemma string_leb_trans a b c :
  String.leb a b = true -> String.leb b c = true -> String.leb a c = true.
Proof.
  unfold String.leb. revert b c.
  induction a as [|x a IH]; intros [|y b] [|z c]; simpl; try easy.
  unfold Ascii.compare.
  destruct (N.compare_spec (N_of_ascii x) (N_of_ascii y)) as [Exy|Lxy|Gxy];
    destruct (N.compare_spec (N_of_ascii y) (N_of_ascii z)) as [Eyz|Lyz|Gyz];
    destruct (N.compare_spec (N_of_ascii x) (N_of_ascii z)) as [Exz|Lxz|Gxz];
    try easy; try lia.
  apply IH.
Qed.

Lemma string_leb_refl a : String.leb a a = true.
Proof. now destruct (String.leb_total a a). Qed.

(** A common prefix does not change the order. *)
Lemma string_leb_app p a b :
  String.leb (p ++ a) (p ++ b) = String.leb a b.
Proof.
  unfold String.leb. induction p as [|x p IH]; simpl; [reflexivity|].
  unfold Ascii.compare. now rewrite N.compare_refl.
Qed.

(** ** Running the monad *)

Lemma bind_Ok {A B} (m : M A) (k : A -> M B) w b w' :
  bind m k w = (Ok b, w') ->
  exists a w1, m w = (Ok a, w1) /\ k a w1 = (Ok b, w').
Proof.
  unfold bind. destruct (m w) as [[a|e] w1]; [|discriminate].
  intros H. now exists a, w1.
Qed.

Lemma bind_Raise {A B} (m : M A) (k : A -> M B) w e w' :
  m w = (Raise e, w') -> bind m k w = (Raise e, w').
Proof. unfold bind. now intros ->. Qed.


Lemma fs_read_Ok {A} (f : dir -> A) w a w' :
  fs_read f w = (Ok a, w') -> a = f (fs w) /\ w' = w.
Proof. unfold fs_read. intros H. injection H as <- <-. now split. Qed.

Lemma assert_Ok b w w' : assert b w = (Ok tt, w') -> b = true /\ w' = w.
Proof.
  destruct b; simpl; [|discriminate].
  unfold ret. intros H. injection H as <-. now split.
Qed.

(** ** Looking up what was written *)

Lemma lookup_cons n x name es :
  lookup name ((n, x) :: es) = if n =? name then Some x else lookup name es.
Proof. unfold lookup. simpl. now destruct (n =? name). Qed.

Lemma rbind_Ok {A B} (r : result A) (k : A -> result B) b :
  rbind r k = Ok b -> exists a, r = Ok a /\ k a = Ok b.
Proof. destruct r as [a|e]; simpl; [|discriminate]. intros H. now exists a. Qed.

Lemma modify_entry_lookup name f es es' :
  modify_entry name f es = Ok es' ->
  exists x x', lookup name es = Some x /\ f x = Ok x' /\
               lookup name es' = Some x'.
Proof.
  revert es'. induction es as [|[n y] es IH]; intros es' H; simpl in H.
  - discriminate.
  - rewrite lookup_cons. destruct (n =? name) eqn:E.
    + apply rbind_Ok in H as (x' & Hx & H). injection H as <-.
      exists y, x'. rewrite lookup_cons, E. now repeat split.
    + apply rbind_Ok in H as (r & Hr & H). injection H as <-.
      destruct (IH r Hr) as (x & x' & H1 & H2 & H3).
      exists x, x'. rewrite lookup_cons, E. now repeat split.
Qed.

Lemma write_entry_lookup mode t name data es es' :
  write_entry mode t name data es = Ok es' ->
  exists st, lookup name es' = Some (File st data).
Proof.
  revert es'. induction es as [|[n y] es IH]; intros es' H; simpl in H.
  - injection H as <-. rewrite lookup_cons, String.eqb_refl. eauto.
  - destruct (n =? name) eqn:E.
    + destruct y as [st d|sub]; [|discriminate]. injection H as <-.
      rewrite lookup_cons, E. eauto.
    + apply rbind_Ok in H as (r & Hr & H). injection H as <-.
      rewrite lookup_cons, E. eauto.
Qed.

(** A file written in the directory [d] is read back from it. *)
Lemma in_dir_write_read d mode t name data es es' :
  in_dir [d] (write_entry mode t name data) es = Ok es' ->
  exists sub st, get_dir [d] es' = Some sub /\
                 lookup name sub = Some (File st data).
Proof.
  simpl. intros H.
  apply modify_entry_lookup in H as (x & x' & _ & Hx & Hl).
  destruct x as [?|sub]; [discriminate|].
  apply rbind_Ok in Hx as (sub' & Hw & Hx). injection Hx as <-.
  apply write_entry_lookup in Hw as (st & Hst).
  exists sub', st. now rewrite Hl.
Qed.

Section BuildFacts.
Variable clock : nat -> Z.
Variable file_mode : Z.
Variable args : Namespace.
Variable README : string.

Local Abbreviation dist := (dist_info_basename args).
Local Abbreviation fname := (fun ic : member => filename (fst ic)).

Lemma fs_write_Ok f w w' :
  fs_write clock f w = (Ok tt, w') ->
  exists es, f (clock (ticks w)) (fs w) = Ok es /\
             w' = {| fs := es; ticks := S (ticks w); written := written w |}.
Proof.
  unfold fs_write. destruct (f _ _) as [es|e]; [|discriminate].
  intros H. injection H as <-. now exists es.
Qed.

Lemma keep_step_inv plat w w1 :
  keep_step clock file_mode plat w = (Ok tt, w1) ->
  (((plat =? "linux") || (plat =? "macos")) = false /\ w1 = w) \/
  (((plat =? "linux") || (plat =? "macos")) = true /\
   exists py es1,
     glob ["lilypond-binaries"; "lib"] "python" (fs w) = [py] /\
     in_dir ["lilypond-binaries"; "lib"; py; "lib-dynload"]
       (fun es => Ok (touch_entry file_mode (clock (ticks w)) ".keep" es))
       (fs w) = Ok es1 /\
     w1 = {| fs := es1; ticks := S (ticks w); written := written w |}).
Proof.
  unfold keep_step. destruct ((plat =? "linux") || (plat =? "macos")).
  - intros H. right. split; [reflexivity|].
    apply bind_Ok in H as (dirs & w0 & Hg & H).
    apply fs_read_Ok in Hg as (-> & ->).
    apply bind_Ok in H as ([] & w0 & Ha & H).
    apply assert_Ok in Ha as (Hlen & ->).
    apply Nat.eqb_eq in Hlen.
    destruct (glob _ _ (fs w)) as [|py [|]] eqn:Eg; try discriminate.
    unfold touch in H.
    apply fs_write_Ok in H as (es1 & E1 & ->).
    now exists py, es1.
  - intros H. left. split; [reflexivity|]. now injection H.
Qed.

Lemma keep_step_written plat w w1 :
  keep_step clock file_mode plat w = (Ok tt, w1) -> written w1 = written w.
Proof.
  intros H. apply keep_step_inv in H as [[_ ->]|[_ (py & es1 & _ & _ & ->)]];
    reflexivity.
Qed.

(** What a run of [build] that returns has done, step by step. *)
Lemma build_inv plat plat_tag w w' :
  build clock file_mode args README plat plat_tag w = (Ok tt, w') ->
  exists w1 es2 es3 es4 es5 es6 d6 st,
    let t := ticks w1 in
    let data := encode (writerows (collect_record_tuples es5)) in
    keep_step clock file_mode plat w = (Ok tt, w1) /\
    mkdir_entry dist (fs w1) = Ok es2 /\
    in_dir [dist]
      (write_entry file_mode (clock (1 + t)) "METADATA"
         (encode (metadata_contents args README))) es2 = Ok es3 /\
    in_dir [dist]
      (write_entry file_mode (clock (2 + t)) "WHEEL"
         (encode (wheel_contents args ("py3-none-" ++ plat_tag)))) es3
      = Ok es4 /\
    write_entry file_mode (clock (3 + t)) "lilypond.py"
      (encode module_contents) es4 = Ok es5 /\
    in_dir [dist] (write_entry file_mode (clock (4 + t)) "RECORD" data) es5
      = Ok es6 /\
    get_dir [dist] es6 = Some d6 /\
    lookup "RECORD" d6 = Some (File st data) /\
    w' = {| fs := es6; ticks := 5 + t;
            written :=
              written w ++
              [(wheel_file args ("py3-none-" ++ plat_tag),
                ordered args (collect_members es5 ++
                         [(from_file [dist; "RECORD"] st data, data)]))] |}.
Proof.
  unfold build. fold (keep_step clock file_mode plat). intros H.
  apply bind_Ok in H as ([] & w1 & Hkeep & H).
  apply bind_Ok in H as ([] & w2 & H2 & H).
  apply bind_Ok in H as ([] & w3 & H3 & H).
  apply bind_Ok in H as ([] & w4 & H4 & H).
  apply bind_Ok in H as ([] & w5 & H5 & H).
  apply bind_Ok in H as (ms & w5' & Hms & H).
  apply bind_Ok in H as (rows & w5'' & Hrows & H).
  apply bind_Ok in H as ([] & w6 & H6 & H).
  apply bind_Ok in H as (record & w6' & Hrec & H).
  unfold mkdir, write_text in *.
  apply fs_write_Ok in H2 as (es2 & E2 & ->).
  apply fs_write_Ok in H3 as (es3 & E3 & ->).
  apply fs_write_Ok in H4 as (es4 & E4 & ->).
  apply fs_write_Ok in H5 as (es5 & E5 & ->).
  apply fs_read_Ok in Hms as (-> & ->).
  apply fs_read_Ok in Hrows as (-> & ->).
  apply fs_write_Ok in H6 as (es6 & E6 & ->).
  cbn [fs ticks written] in *.
  change (in_dir [] (mkdir_entry dist) (fs w1)) with (mkdir_entry dist (fs w1))
    in E2.
  change (in_dir [] ?op es4) with (op es4) in E5.
  unfold read_member in Hrec. cbn [fs] in Hrec.
  destruct (in_dir_write_read _ _ _ _ _ _ _ E6) as (d6 & st & Ed6 & ER).
  rewrite Ed6, ER in Hrec.
  assert (Hr : record = (from_file [dist; "RECORD"] st
                           (encode (writerows (collect_record_tuples es5))),
                         encode (writerows (collect_record_tuples es5)))
               /\ w6' = {| fs := es6; ticks := 5 + ticks w1;
                           written := written w1 |}).
  { now injection Hrec as <- <-. }
  destruct Hr as [-> ->].
  unfold zip_write in H. cbn [fs ticks written] in H.
  rewrite (keep_step_written _ _ _ Hkeep) in H.
  exists w1, es2, es3, es4, es5, es6, d6, st. cbn zeta.
  repeat split; try assumption.
  now injection H as <-.
Qed.
End BuildFacts.

(** * The claims *)

Section Claims.
Variable clock : nat -> Z.
Variable file_mode : Z.
Variable args : Namespace.
Variable README : string.

Local Abbreviation fname := (fun ic : member => filename (fst ic)).

Lemma prio_le_2 (m : member) : (prio args m <= 2)%nat.
Proof.
  unfold prio. destruct m as [info c].
  destruct (is_relative_to _ _); [lia|].
  destruct (is_relative_to _ _); lia.
Qed.

(** The sequence written is sorted by bucket, and inside a bucket by name. *)
Lemma ordered_sorted (ms : list member) :
  StronglySorted
    (refines Nat.leb (prio args) (key_le String.leb fname))
    (ordered args ms).
Proof.
  apply sort_refines.
  - intros a b. destruct (Nat.leb_spec a b); [now left|].
    right. apply Nat.leb_le. lia.
  - intros a b c Hab Hbc. apply Nat.leb_le.
    apply Nat.leb_le in Hab. apply Nat.leb_le in Hbc. lia.
  - apply sort_sorted.
    + apply String.leb_total.
    + apply string_leb_trans.
Qed.

(** C9. Output naming: a build that returns has written one archive, under
    the name [lilypond-<version>-<build number>-py3-none-<platform tag>.whl]
    made of the version and build number of the command line and the
    platform tag of the call. *)
Theorem output_naming plat plat_tag w w' :
  build clock file_mode args README plat plat_tag w = (Ok tt, w') ->
  exists members,
    written w' =
    written w ++
    [(("lilypond-" ++ version args ++ "-" ++ str_of_Z (build_number args)
         ++ "-py3-none-" ++ plat_tag ++ ".whl")%string, members)].
Proof.
  intros H.
  apply build_inv in H
    as (w1 & es2 & es3 & es4 & es5 & es6 & d6 & st & H).
  cbn zeta in H. destruct H as (_ & _ & _ & _ & _ & _ & _ & _ & ->).
  eexists. cbn [written]. reflexivity.
Qed.

(** C4. Bucket ordering: in the sequence a build writes, a member of a
    lower bucket stands strictly before every member of a higher one:
    bucket 0 (general) before bucket 1 (under [lilypond-binaries/lib/])
    before bucket 2 (under the dist-info directory). *)
Theorem bucket_ordering plat plat_tag w w' :
  build clock file_mode args README plat plat_tag w = (Ok tt, w') ->
  exists members,
    written w' =
    written w ++ [(wheel_file args ("py3-none-" ++ plat_tag), members)] /\
    forall i j a b,
      nth_error members i = Some a ->
      nth_error members j = Some b ->
      (prio args a < prio args b)%nat ->
      (i < j)%nat.
Proof.
  intros H.
  apply build_inv in H
    as (w1 & es2 & es3 & es4 & es5 & es6 & d6 & st & H).
  cbn zeta in H. destruct H as (_ & _ & _ & _ & _ & _ & _ & _ & ->).
  eexists. split; [reflexivity|].
  intros i j a b Ha Hb Hlt.
  destruct (Nat.lt_trichotomy i j) as [Hij|[Hij|Hij]]; [exact Hij | |].
  - subst j. rewrite Ha in Hb. injection Hb as <-. lia.
  - destruct (StronglySorted_nth _ _ (ordered_sorted _) j i b a Hij Hb Ha)
      as [Hle _].
    apply Nat.leb_le in Hle. lia.
Qed.

(** C5. Within-bucket stability: the sort by bucket keeps the order of
    the sort by name, so two members of the same bucket stand in the
    sequence a build writes in the lexicographic order of their paths. *)
Theorem within_bucket_alphabetical plat plat_tag w w' :
  build clock file_mode args README plat plat_tag w = (Ok tt, w') ->
  exists members,
    written w' =
    written w ++ [(wheel_file args ("py3-none-" ++ plat_tag), members)] /\
    forall i j a b,
      nth_error members i = Some a ->
      nth_error members j = Some b ->
      prio args a = prio args b ->
      (i < j)%nat ->
      String.leb (filename (fst a)) (filename (fst b)) = true.
Proof.
  intros H.
  apply build_inv in H
    as (w1 & es2 & es3 & es4 & es5 & es6 & d6 & st & H).
  cbn zeta in H. destruct H as (_ & _ & _ & _ & _ & _ & _ & _ & ->).
  eexists. split; [reflexivity|].
  intros i j a b Ha Hb Heq Hij.
  destruct (StronglySorted_nth _ _ (ordered_sorted _) i j a b Hij Ha Hb)
    as [_ Hst].
  apply Hst. unfold key_le. rewrite Heq. apply Nat.leb_refl.
Qed.
End Claims.

Lemma output_naming_witness :
  exists members,
    written (snd Sample.linux) =
    [] ++ [("lilypond-2.24.3-1-py3-none-manylinux2014_x86_64.whl", members)].
Proof.
  apply (output_naming Sample.clock 33188 Sample.args "Hello" "linux"
           "manylinux2014_x86_64" Sample.w0 (snd Sample.linux)).
  vm_compute. reflexivity.
Defined.

Lemma bucket_ordering_witness :
  exists members,
    written (snd Sample.linux) =
    [] ++ [(wheel_file Sample.args "py3-none-manylinux2014_x86_64", members)] /\
    forall i j a b,
      nth_error members i = Some a ->
      nth_error members j = Some b ->
      (prio Sample.args a < prio Sample.args b)%nat ->
      (i < j)%nat.
Proof.
  apply (bucket_ordering Sample.clock 33188 Sample.args "Hello" "linux"
           "manylinux2014_x86_64" Sample.w0 (snd Sample.linux)).
  vm_compute. reflexivity.
Defined.

Lemma within_bucket_alphabetical_witness :
  exists members,
    written (snd Sample.linux) =
    [] ++ [(wheel_file Sample.args "py3-none-manylinux2014_x86_64", members)] /\
    forall i j a b,
      nth_error members i = Some a ->
      nth_error members j = Some b ->
      prio Sample.args a = prio Sample.args b ->
      (i < j)%nat ->
      String.leb (filename (fst a)) (filename (fst b)) = true.
Proof.
  apply (within_bucket_alphabetical Sample.clock 33188 Sample.args "Hello"
           "linux" "manylinux2014_x86_64" Sample.w0 (snd Sample.linux)).
  vm_compute. reflexivity.
Defined.

(** * Further properties of [build] *)

(** ** What leaves the written files alone *)










(** ** The tree after each write *)


Lemma lookup_In n x es : lookup n es = Some x -> In (n, x) es.
Proof.
  induction es as [|[m y] es IH]; [discriminate|].
  rewrite lookup_cons. destruct (String.eqb_spec m n) as [->|_].
  - intros H. injection H as <-. now left.
  - intros H. right. auto.
Qed.

Lemma mkdir_entry_Ok n es es' :
  mkdir_entry n es = Ok es' ->
  lookup n es = None /\ es' = es ++ [(n, Dir [])].
Proof.
  unfold mkdir_entry. destruct (lookup n es); [discriminate|].
  intros H. injection H as <-. now split.
Qed.

Lemma modify_entry_app_last n f es x :
  lookup n es = None ->
  modify_entry n f (es ++ [(n, x)]) =
  rbind (f x) (fun x' => Ok (es ++ [(n, x')])).
Proof.
  induction es as [|[m y] es IH]; intros H.
  - cbn. now rewrite String.eqb_refl.
  - rewrite lookup_cons in H. cbn [app modify_entry].
    destruct (m =? n); [discriminate|].
    rewrite (IH H). now destruct (f x).
Qed.

Lemma write_entry_In mode t n data es es' :
  write_entry mode t n data es = Ok es' ->
  exists st, In (n, File st data) es'.
Proof.
  intros H. apply write_entry_lookup in H as (st & H).
  exists st. now apply lookup_In.
Qed.

Lemma walk_node_Dir dirpath es :
  walk_node dirpath (Dir es) =
  flat_map (fun e => match snd e with
                     | File st data => [(dirpath ++ [fst e], st, data)]
                     | Dir _ => []
                     end) es
  ++ flat_map (fun e => walk_node (dirpath ++ [fst e]) (snd e)) es.
Proof. reflexivity. Qed.

(** A file found along a path of the tree is met by the walk. *)
Lemma walk_node_In name st data :
  forall path pre es d,
    get_dir path es = Some d ->
    In (name, File st data) d ->
    In (pre ++ path ++ [name], st, data) (walk_node pre (Dir es)).
Proof.
  induction path as [|d0 path IH]; intros pre es d Hd Hin.
  - injection Hd as <-. rewrite walk_node_Dir. apply in_or_app. left.
    apply in_flat_map. exists (name, File st data). split; [exact Hin|].
    now left.
  - cbn [get_dir] in Hd.
    destruct (lookup d0 es) as [[?|sub]|] eqn:El; try discriminate.
    apply lookup_In in El.
    rewrite walk_node_Dir. apply in_or_app. right.
    apply in_flat_map. exists (d0, Dir sub). split; [exact El|].
    cbn [fst snd].
    replace (pre ++ (d0 :: path) ++ [name])
      with ((pre ++ [d0]) ++ path ++ [name])
      by (rewrite <- app_assoc; reflexivity).
    now apply (IH _ _ d).
Qed.

Lemma collect_members_In path name st data es d :
  get_dir path es = Some d ->
  In (name, File st data) d ->
  In (from_file (path ++ [name]) st data, data) (collect_members es).
Proof.
  intros Hd Hin. unfold collect_members.
  apply in_map_iff. exists (path ++ [name], st, data). split; [reflexivity|].
  apply (walk_node_In name st data path [] es d Hd Hin).
Qed.

Lemma collect_record_tuples_entries es :
  collect_record_tuples es = map manifest_entry (collect_members es).
Proof.
  unfold collect_record_tuples, collect_members. rewrite map_map.
  apply map_ext. now intros [[relpath st] data].
Qed.

Section More.
Variable clock : nat -> Z.
Variable file_mode : Z.
Variable args : Namespace.
Variable README : string.

Local Abbreviation dist := (dist_info_basename args).

(** The tree that is walked: the tree after the placeholder step, with the
    dist-info directory of two files appended and [lilypond.py] written. *)
Lemma build_shape plat plat_tag w w' :
  build clock file_mode args README plat plat_tag w = (Ok tt, w') ->
  exists w1 stM stW es5 st6,
    let data := encode (writerows (collect_record_tuples es5)) in
    keep_step clock file_mode plat w = (Ok tt, w1) /\
    lookup dist (fs w1) = None /\
    write_entry file_mode (clock (3 + ticks w1)) "lilypond.py"
      (encode module_contents)
      (fs w1 ++
       [(dist,
         Dir [("METADATA", File stM (encode (metadata_contents args README)));
              ("WHEEL",
               File stW
                 (encode (wheel_contents args ("py3-none-" ++ plat_tag))))])])
      = Ok es5 /\
    written w' =
      written w ++
      [(wheel_file args ("py3-none-" ++ plat_tag),
        ordered args (collect_members es5 ++
                      [(from_file [dist; "RECORD"] st6 data, data)]))].
Proof.
  intros H.
  apply build_inv in H as (w1 & es2 & es3 & es4 & es5 & es6 & d6 & st & H).
  cbn zeta in H.
  destruct H as (Hk & E2 & E3 & E4 & E5 & _ & _ & _ & ->).
  apply mkdir_entry_Ok in E2 as [Hnone ->].
  cbn [in_dir] in E3. rewrite (modify_entry_app_last _ _ _ _ Hnone) in E3.
  cbn in E3. injection E3 as <-.
  cbn [in_dir] in E4. rewrite (modify_entry_app_last _ _ _ _ Hnone) in E4.
  cbn in E4. injection E4 as <-.
  eexists w1, _, _, es5, st. cbn zeta.
  split; [exact Hk|]. split; [exact Hnone|]. split; [exact E5|]. reflexivity.
Qed.

(** X2. On Linux and macOS, when the entries [python*] of
    [lilypond-binaries/lib] are not exactly one, the build stops on the
    assertion with the tree untouched and nothing written. *)
Theorem python_dir_assertion plat plat_tag w :
  plat = "linux" \/ plat = "macos" ->
  List.length (glob ["lilypond-binaries"; "lib"] "python" (fs w)) <> 1%nat ->
  build clock file_mode args README plat plat_tag w = (Raise AssertionError, w).
Proof.
  intros Hp Hn. unfold build. apply bind_Raise.
  assert (E : (plat =? "linux") || (plat =? "macos") = true).
  { destruct Hp as [-> | ->]; reflexivity. }
  rewrite E. unfold bind, fs_read, assert.
  apply Nat.eqb_neq in Hn. now rewrite Hn.
Qed.

End More.


Lemma python_dir_assertion_witness :
  Cases.run "linux" "manylinux2014_x86_64" Cases.bare =
  (Raise AssertionError, Cases.bare).
Proof.
  apply (python_dir_assertion Sample.clock 33188 Sample.args "Hello" "linux"
           "manylinux2014_x86_64" Cases.bare).
  - left. reflexivity.
  - simpl. lia.
Defined.


(** ** The manifest rows and the dist-info directory *)

(** ** Fields that are never quoted *)

Lemma needs_quotes_app a b :
  needs_quotes (a ++ b) = needs_quotes a || needs_quotes b.
Proof.
  induction a as [|c a IH]; simpl; [reflexivity|].
  now rewrite IH, orb_assoc.
Qed.

Lemma hex_digit_plain x : special (SHA256.hex_digit x) = false.
Proof.
  unfold SHA256.hex_digit.
  generalize (Z.to_nat x). intros n.
  do 16 (destruct n as [|n]; [reflexivity|]).
  now destruct n.
Qed.

Lemma hex_plain l : needs_quotes (SHA256.hex l) = false.
Proof.
  induction l as [|x l IH]; simpl; [reflexivity|].
  now rewrite !hex_digit_plain, IH.
Qed.

Lemma string_of_uint_plain d : needs_quotes (NilEmpty.string_of_uint d) = false.
Proof. induction d; simpl; auto. Qed.

Lemma str_of_nat_plain n : needs_quotes (str_of_nat n) = false.
Proof.
  unfold str_of_nat, NilZero.string_of_uint.
  destruct (Nat.to_uint n) eqn:E; try reflexivity;
    rewrite <- E; apply string_of_uint_plain.
Qed.

Lemma digest_plain c : needs_quotes ("sha256=" ++ SHA256.hexdigest c) = false.
Proof. rewrite needs_quotes_app. unfold SHA256.hexdigest. now rewrite hex_plain. Qed.

(** X4. A row of the manifest is quoted in its name at most: the digest and
    the size are written as they are, between the commas, and the row ends
    with one CR LF. *)
Theorem manifest_row_plain (m : member) :
  writerow (manifest_entry m) =
  (csv_field (filename (fst m)) ++ ",sha256=" ++ SHA256.hexdigest (snd m)
     ++ "," ++ str_of_nat (List.length (snd m)) ++ lineterminator)%string.
Proof.
  unfold manifest_entry, writerow.
  unfold csv_field at 2 3.
  rewrite digest_plain, str_of_nat_plain.
  f_equal.
Qed.

(** ** Names of a directory *)

Lemma modify_entry_names n f es es' :
  modify_entry n f es = Ok es' -> map fst es' = map fst es.
Proof.
  revert es'. induction es as [|[m y] es IH]; intros es' H; simpl in H.
  - discriminate.
  - destruct (m =? n).
    + apply rbind_Ok in H as (x' & _ & H). now injection H as <-.
    + apply rbind_Ok in H as (r & Hr & H). injection H as <-.
      simpl. f_equal. now apply IH.
Qed.

Lemma lookup_None n es : lookup n es = None <-> ~ In n (map fst es).
Proof.
  induction es as [|[m y] es IH]; [now split|].
  rewrite lookup_cons. simpl.
  destruct (String.eqb_spec m n) as [->|Hn].
  - split; [discriminate|]. intros H. exfalso. apply H. now left.
  - rewrite IH. split; [intros H [E|E]; auto | intros H E; apply H; now right].
Qed.

Lemma ordered_In args (x : member) ms : In x ms <-> In x (ordered args ms).
Proof.
  assert (P : Permutation ms (ordered args ms)).
  { unfold ordered. eapply Permutation_trans;
      [apply (sort_perm String.leb (fun ic : member => filename (fst ic)))
      |apply (sort_perm Nat.leb (prio args))]. }
  split; apply Permutation_in; [exact P | now apply Permutation_sym].
Qed.

Section Manifest.
Variable clock : nat -> Z.
Variable file_mode : Z.
Variable args : Namespace.
Variable README : string.

Local Abbreviation dist := (dist_info_basename args).

Lemma keep_step_names plat w w1 :
  keep_step clock file_mode plat w = (Ok tt, w1) ->
  map fst (fs w1) = map fst (fs w).
Proof.
  intros H. apply keep_step_inv in H as [[_ ->]|[_ (py & es1 & _ & H & ->)]];
    [reflexivity|].
  cbn [fs]. cbn [in_dir] in H. now apply modify_entry_names in H.
Qed.

Lemma module_digest :
  manifest_entry (from_file ["lilypond.py"]
                    {| st_mode := 0; st_mtime := 0 |} (encode module_contents),
                  encode module_contents) =
  ("lilypond.py",
   "sha256=d39321a86e36d38517ca637b71d693e211dd9ac376ac54306b0aa21b23acb880",
   "134")%string.
Proof. vm_compute. reflexivity. Qed.

(** X5. The wrapper module [lilypond.py] is a member of the archive, with the
    text of lines 97 to 102, and RECORD has a row for it with the digest and
    the size of that text. *)
Theorem wrapper_in_manifest plat plat_tag w w' :
  build clock file_mode args README plat plat_tag w = (Ok tt, w') ->
  exists members info record rows,
    written w' =
      written w ++ [(wheel_file args ("py3-none-" ++ plat_tag), members)] /\
    In (info, encode module_contents) members /\
    filename info = "lilypond.py"%string /\
    In record members /\
    filename (fst record) = (dist ++ "/RECORD")%string /\
    snd record = encode (writerows rows) /\
    In ("lilypond.py",
        "sha256=d39321a86e36d38517ca637b71d693e211dd9ac376ac54306b0aa21b23acb880",
        "134")%string rows.
Proof.
  intros H.
  apply build_shape in H as (w1 & stM & stW & es5 & st6 & H). cbn zeta in H.
  destruct H as (_ & _ & E5 & ->).
  apply write_entry_In in E5 as (st & Hin).
  pose proof (collect_members_In [] "lilypond.py" st _ es5 es5 eq_refl Hin)
    as Hm.
  cbn [app] in Hm.
  eexists _, _, _, (collect_record_tuples es5).
  split; [reflexivity|].
  split; [apply ordered_In, in_or_app; left; exact Hm|].
  split; [reflexivity|].
  split; [apply ordered_In, in_or_app; right; now left|].
  split; [reflexivity|].
  split; [reflexivity|].
  rewrite collect_record_tuples_entries, <- module_digest.
  apply (in_map manifest_entry) in Hm. exact Hm.
Qed.

(** X6. Over a tree that already has an entry named as the dist-info
    directory no build returns; on a platform other than linux and macos it
    raises [FileExistsError] at [mkdir], the tree untouched. *)
Theorem existing_dist_info plat plat_tag w x :
  lookup dist (fs w) = Some x ->
  (forall w', build clock file_mode args README plat plat_tag w <> (Ok tt, w')) /\
  (plat <> "linux" -> plat <> "macos" ->
   build clock file_mode args README plat plat_tag w
   = (Raise FileExistsError, w)).
Proof.
  intros Hx. split.
  - intros w' H.
    apply build_shape in H as (w1 & stM & stW & es5 & st6 & H). cbn zeta in H.
    destruct H as (Hk & Hnone & _).
    apply lookup_None in Hnone. rewrite (keep_step_names _ _ _ Hk) in Hnone.
    apply lookup_None in Hnone. congruence.
  - intros Hl Hm. unfold build.
    apply String.eqb_neq in Hl. apply String.eqb_neq in Hm.
    rewrite Hl, Hm. cbn [orb].
    unfold bind at 1. unfold ret at 1.
    apply bind_Raise. unfold mkdir, fs_write. cbn [in_dir].
    unfold mkdir_entry. now rewrite Hx.
Qed.
End Manifest.

Lemma wrapper_in_manifest_witness :
  exists members info record rows,
    written (snd Sample.linux) =
      [] ++ [(wheel_file Sample.args "py3-none-manylinux2014_x86_64", members)] /\
    In (info, encode module_contents) members /\
    filename info = "lilypond.py"%string /\
    In record members /\
    filename (fst record) =
      (dist_info_basename Sample.args ++ "/RECORD")%string /\
    snd record = encode (writerows rows) /\
    In ("lilypond.py",
        "sha256=d39321a86e36d38517ca637b71d693e211dd9ac376ac54306b0aa21b23acb880",
        "134")%string rows.
Proof.
  apply (wrapper_in_manifest Sample.clock 33188 Sample.args "Hello" "linux"
           "manylinux2014_x86_64" Sample.w0 (snd Sample.linux)).
  vm_compute. reflexivity.
Defined.

Lemma existing_dist_info_witness :
  (forall w', Cases.run "windows" "win_amd64" Cases.stale <> (Ok tt, w')) /\
  ("windows" <> "linux" -> "windows" <> "macos" ->
   Cases.run "windows" "win_amd64" Cases.stale
   = (Raise FileExistsError, Cases.stale))%string.
Proof.
  apply (existing_dist_info Sample.clock 33188 Sample.args "Hello" "windows"
           "win_amd64" Cases.stale (Dir [])).
  reflexivity.
Defined.

(** ** Writes that succeed *)





Lemma touch_entry_fresh mode t n es :
  lookup n es = None ->
  touch_entry mode t n es =
  es ++ [(n, File {| st_mode := mode; st_mtime := t |} [])].
Proof.
  induction es as [|[m y] es IH]; [reflexivity|].
  rewrite lookup_cons. simpl. destruct (m =? n); [discriminate|].
  intros H. now rewrite IH.
Qed.

Section Forward.
Variable clock : nat -> Z.
Variable file_mode : Z.
Variable args : Namespace.
Variable README : string.

Local Abbreviation dist := (dist_info_basename args).
Local Abbreviation run := (build clock file_mode args README).



End Forward.

(** ** Builds that return *)

Section Success.
Variable clock : nat -> Z.
Variable file_mode : Z.
Variable args : Namespace.
Variable README : string.

Local Abbreviation dist := (dist_info_basename args).
Local Abbreviation run := (build clock file_mode args README).



End Success.



(** ** Reading RECORD back *)













Section ReadBack.
Variable clock : nat -> Z.
Variable file_mode : Z.
Variable args : Namespace.
Variable README : string.

End ReadBack.


(** ** The dist-info directory comes last *)

Lemma no_slash_app a b : no_slash (a ++ b) = no_slash a && no_slash b.
Proof.
  induction a as [|c a IH]; simpl; [reflexivity|].
  now rewrite IH, andb_assoc.
Qed.

Lemma split_no_slash n : no_slash n = true -> split n = [n].
Proof.
  induction n as [|c n IH]; simpl; [reflexivity|].
  intros H. apply andb_prop in H as [Hc Hn].
  apply negb_true_iff in Hc. now rewrite Hc, (IH Hn).
Qed.

Lemma split_app_sep n s :
  no_slash n = true -> split (n ++ String "/" s) = n :: split s.
Proof.
  induction n as [|c n IH]; simpl; [reflexivity|].
  intros H. apply andb_prop in H as [Hc Hn].
  apply negb_true_iff in Hc. now rewrite Hc, (IH Hn).
Qed.

Lemma parts_name n : valid_name n = true -> parts n = [n].
Proof.
  unfold valid_name, parts. intros H. apply andb_prop in H as [Hp Hn].
  rewrite (split_no_slash _ Hn). simpl. now rewrite Hp.
Qed.

Lemma parts_join_cons n r rest :
  valid_name n = true ->
  parts (join (n :: r :: rest)) = n :: parts (join (r :: rest)).
Proof.
  unfold valid_name. intros H. apply andb_prop in H as [Hp Hn].
  change (join (n :: r :: rest)) with (n ++ String "/" (join (r :: rest)))%string.
  unfold parts. rewrite (split_app_sep _ _ Hn). simpl. now rewrite Hp.
Qed.

(** The first component of the path of a file under the entry [n]. *)
Lemma parts_join_head n rest :
  valid_name n = true ->
  exists tl, parts (join (n :: rest)) = n :: tl.
Proof.
  intros H. destruct rest as [|r rest].
  - exists []. now apply parts_name.
  - eexists. now apply parts_join_cons.
Qed.

Lemma node_induction (P : node -> Prop) :
  (forall st data, P (File st data)) ->
  (forall es, Forall (fun e => P (snd e)) es -> P (Dir es)) ->
  forall n, P n.
Proof.
  intros HF HD. fix IH 1. intros [st data|es]; [apply HF|].
  apply HD. induction es as [|e es IHes]; constructor; [apply IH | exact IHes].
Qed.

(** The walk of a directory yields paths below that directory. *)
Lemma walk_node_path x :
  forall pre p st data,
    In (p, st, data) (walk_node pre x) ->
    exists r rest, p = pre ++ r :: rest.
Proof.
  induction x as [st0 d0|es IH] using node_induction; intros pre p st data H.
  - destruct H.
  - rewrite walk_node_Dir in H. apply in_app_or in H as [H|H].
    + apply in_flat_map in H as ([n y] & _ & H). cbn [fst snd] in H.
      destruct y; [|destruct H]. destruct H as [H|[]].
      injection H as <- _ _. now exists n, [].
    + apply in_flat_map in H as ([n y] & Hin & H). cbn [fst snd] in H.
      rewrite Forall_forall in IH.
      destruct (IH _ Hin _ _ _ _ H) as (r & rest & ->).
      exists n, (r :: rest). now rewrite <- app_assoc.
Qed.

Lemma filter_flat_map {A B} (p : B -> bool) (f : A -> list B) l :
  filter p (flat_map f l) = flat_map (fun x => filter p (f x)) l.
Proof.
  induction l as [|x l IH]; simpl; [reflexivity|].
  now rewrite filter_app, IH.
Qed.

Lemma flat_map_restrict {A B} (keep : A -> bool) (F : A -> list B) l :
  (forall e, In e l -> keep e = false -> F e = []) ->
  flat_map F l = flat_map F (filter keep l).
Proof.
  induction l as [|x l IH]; intros H; simpl; [reflexivity|].
  rewrite IH by (intros e He; apply H; now right).
  destruct (keep x) eqn:E; simpl; [reflexivity|].
  now rewrite (H x (or_introl eq_refl) E).
Qed.

Lemma map_flat_map {A B C} (g : B -> C) (f : A -> list B) l :
  map g (flat_map f l) = flat_map (fun x => map g (f x)) l.
Proof.
  induction l as [|x l IH]; simpl; [reflexivity|].
  now rewrite map_app, IH.
Qed.

Lemma flat_map_nil {A B} (F : A -> list B) l :
  (forall e, In e l -> F e = []) -> flat_map F l = [].
Proof.
  induction l as [|x l IH]; intros H; simpl; [reflexivity|].
  rewrite (H x (or_introl eq_refl)), IH; [reflexivity|].
  intros e He. apply H. now right.
Qed.

Lemma filter_nil {A} (p : A -> bool) l :
  (forall x, In x l -> p x = false) -> filter p l = [].
Proof.
  induction l as [|x l IH]; intros H; simpl; [reflexivity|].
  rewrite (H x (or_introl eq_refl)). apply IH. intros y Hy. apply H. now right.
Qed.

Lemma lookup_None_filter d es :
  lookup d es = None -> filter (fun e => fst e =? d) es = [].
Proof.
  induction es as [|[n y] es IH]; [reflexivity|].
  rewrite lookup_cons. simpl. destruct (n =? d); [discriminate | exact IH].
Qed.

Lemma write_entry_filter mode t n data es es' d :
  write_entry mode t n data es = Ok es' ->
  (n =? d) = false ->
  filter (fun e => fst e =? d) es' = filter (fun e => fst e =? d) es.
Proof.
  revert es'. induction es as [|[m y] es IH]; intros es' H Hn; simpl in H.
  - injection H as <-. simpl. now rewrite Hn.
  - destruct (String.eqb_spec m n) as [->|Hm].
    + destruct y as [st0 d0|sub]; [|discriminate]. injection H as <-.
      simpl. now rewrite Hn.
    + apply rbind_Ok in H as (r & Hr & H). injection H as <-.
      simpl. now rewrite (IH _ Hr Hn).
Qed.

Lemma write_entry_valid mode t n data es es' :
  write_entry mode t n data es = Ok es' ->
  valid_name n = true ->
  Forall (fun e => valid_name (fst e) = true) es ->
  Forall (fun e => valid_name (fst e) = true) es'.
Proof.
  revert es'. induction es as [|[m y] es IH]; intros es' H Hn Hes; simpl in H.
  - injection H as <-. now repeat constructor.
  - inversion Hes as [|? ? Hm Hes']; subst.
    destruct (m =? n).
    + destruct y as [st0 d0|sub]; [|discriminate]. injection H as <-.
      now constructor.
    + apply rbind_Ok in H as (r & Hr & H). injection H as <-.
      constructor; [exact Hm | now apply IH].
Qed.

Section Trailing.
Variable clock : nat -> Z.
Variable file_mode : Z.
Variable args : Namespace.
Variable README : string.

Local Abbreviation dist := (dist_info_basename args).
Local Abbreviation fname := (fun ic : member => filename (fst ic)).
Local Abbreviation in_dist := (fun m : member => (prio args m =? 2)%nat).

Lemma dist_valid : no_slash (version args) = true -> valid_name dist = true.
Proof.
  intros Hv. unfold valid_name. apply andb_true_intro. split; [reflexivity|].
  unfold dist_info_basename. now rewrite !no_slash_app, Hv.
Qed.

Lemma prio_head n rest st data :
  valid_name dist = true -> valid_name n = true ->
  (prio args (from_file (n :: rest) st data, data) =? 2)%nat = (dist =? n).
Proof.
  intros Hd Hn. unfold prio, is_relative_to. cbn [from_file filename].
  rewrite (parts_name _ Hd).
  destruct (parts_join_head n rest Hn) as (tl & ->).
  cbn [is_prefix]. rewrite andb_true_r.
  destruct (dist =? n); [reflexivity|].
  now destruct (is_prefix _ _).
Qed.

(** The members of the walk that fall in the bucket of the dist-info
    directory are the files of that directory. *)
Lemma dist_members es D :
  valid_name dist = true ->
  Forall (fun e => valid_name (fst e) = true) es ->
  filter (fun e => fst e =? dist) es = [(dist, Dir D)] ->
  filter in_dist (collect_members es) =
  filter in_dist
    (map (fun f => let '(relpath, st, data) := f in
                   (from_file relpath st data, data))
         (walk_node [dist] (Dir D))).
Proof.
  intros Hd Hes Hf. unfold collect_members, walk.
  rewrite walk_node_Dir, map_app, filter_app. cbn [app].
  rewrite Forall_forall in Hes.
  assert (Hent : forall e, In e es -> (fst e =? dist) = true ->
                           e = (dist, Dir D)).
  { intros e He Hn.
    assert (Hin : In e (filter (fun e => fst e =? dist) es))
      by (apply filter_In; now split).
    rewrite Hf in Hin. destruct Hin as [<-|[]]. reflexivity. }
  rewrite !map_flat_map, !filter_flat_map.
  rewrite flat_map_nil.
  - rewrite (flat_map_restrict (fun e => fst e =? dist)).
    + rewrite Hf. cbn [flat_map fst snd]. now rewrite app_nil_r.
    + intros [n y] He Hn. cbn [fst snd] in *. apply filter_nil.
      intros m Hm. apply in_map_iff in Hm as ([[p st] data] & <- & Hp).
      apply walk_node_path in Hp as (r & rest & ->). cbn [app].
      rewrite (prio_head n (r :: rest) st data Hd (Hes _ He)).
      now rewrite String.eqb_sym.
  - intros [n y] He. cbn [fst snd]. destruct y as [st data|sub]; [|reflexivity].
    cbn [map filter]. rewrite (prio_head n [] st data Hd (Hes _ He)).
    destruct (dist =? n) eqn:E; [|reflexivity].
    rewrite String.eqb_sym in E. pose proof (Hent _ He E) as Habs.
    discriminate Habs.
Qed.

(** X10. With a version without separator and valid names at the root of
    the tree, the archive ends with the three files of the dist-info
    directory, in the order METADATA, RECORD, WHEEL: the last member written
    is WHEEL, and no member before them is under the dist-info directory. *)
Theorem dist_info_last plat plat_tag w w' :
  build clock file_mode args README plat plat_tag w = (Ok tt, w') ->
  no_slash (version args) = true ->
  Forall (fun e => valid_name (fst e) = true) (fs w) ->
  exists front metadata record wheel,
    written w' =
      written w ++
      [(wheel_file args ("py3-none-" ++ plat_tag),
        front ++ [metadata; record; wheel])] /\
    Forall (fun m => prio args m < 2)%nat front /\
    filename (fst metadata) = (dist ++ "/METADATA")%string /\
    snd metadata = encode (metadata_contents args README) /\
    filename (fst record) = (dist ++ "/RECORD")%string /\
    filename (fst wheel) = (dist ++ "/WHEEL")%string /\
    snd wheel = encode (wheel_contents args ("py3-none-" ++ plat_tag)).
Proof.
  intros H Hv Hw.
  apply build_shape in H as (w1 & stM & stW & es5 & st6 & H). cbn zeta in H.
  destruct H as (Hk & Hnone & E5 & ->).
  pose proof (dist_valid Hv) as Hd.
  set (D := [("METADATA", File stM (encode (metadata_contents args README)));
             ("WHEEL",
              File stW (encode (wheel_contents args ("py3-none-" ++ plat_tag))))])
    in *.
  set (data := encode (writerows (collect_record_tuples es5))).
  set (rec := (from_file [dist; "RECORD"] st6 data, data)).
  assert (Hf : filter (fun e => fst e =? dist) es5 = [(dist, Dir D)]).
  { rewrite (write_entry_filter _ _ _ _ _ _ dist E5) by reflexivity.
    rewrite filter_app, (lookup_None_filter _ _ Hnone). cbn [filter fst app].
    now rewrite String.eqb_refl. }
  assert (Hval : Forall (fun e => valid_name (fst e) = true) es5).
  { apply (write_entry_valid _ _ _ _ _ _ E5); [reflexivity|].
    apply Forall_app. split; [|now repeat constructor].
    apply Forall_forall. intros e He.
    assert (Hn : In (fst e) (map fst (fs w)))
      by (rewrite <- (keep_step_names _ _ _ _ _ Hk); now apply in_map).
    apply in_map_iff in Hn as (e' & <- & He').
    rewrite Forall_forall in Hw. now apply Hw. }
  pose proof (dist_members es5 D Hd Hval Hf) as Hm.
  cbn [walk_node D flat_map fst snd app map filter] in Hm.
  rewrite !(prio_head dist _ _ _ Hd Hd), String.eqb_refl in Hm.
  assert (Hrec : (prio args rec =? 2)%nat = true).
  { unfold rec. now rewrite (prio_head dist _ _ _ Hd Hd), String.eqb_refl. }
  unfold ordered.
  rewrite (sort_buckets (prio args)) by apply prio_le_2.
  rewrite !(filter_sort String.leb fname String.leb_total string_leb_trans).
  rewrite (filter_app in_dist), Hm. cbn [filter]. fold rec. rewrite Hrec.
  assert (L1 : String.leb (dist ++ "/" ++ "WHEEL") (dist ++ "/" ++ "RECORD")
               = false) by (rewrite string_leb_app; reflexivity).
  assert (L2 : String.leb (dist ++ "/" ++ "METADATA") (dist ++ "/" ++ "RECORD")
               = true) by (rewrite string_leb_app; reflexivity).
  unfold rec at 3.
  cbn [app sort insert fst from_file filename join].
  rewrite L1. cbn [insert fst from_file filename join]. rewrite L2.
  eexists _, _, rec, _. rewrite app_assoc.
  split; [reflexivity|]. split; [|now repeat split].
  apply Forall_app. split; apply Forall_forall; intros m Hm0;
    apply (Permutation_in _ (Permutation_sym (sort_perm String.leb fname _)))
      in Hm0;
    apply filter_In in Hm0 as [_ Hm0]; apply Nat.eqb_eq in Hm0; lia.
Qed.
End Trailing.

Lemma dist_info_last_witness :
  exists front metadata record wheel,
    written (snd Sample.linux) =
      written Sample.w0 ++
      [(wheel_file Sample.args "py3-none-manylinux2014_x86_64",
        front ++ [metadata; record; wheel])] /\
    Forall (fun m => prio Sample.args m < 2)%nat front /\
    filename (fst metadata) =
      (dist_info_basename Sample.args ++ "/METADATA")%string /\
    snd metadata = encode (metadata_contents Sample.args "Hello") /\
    filename (fst record) =
      (dist_info_basename Sample.args ++ "/RECORD")%string /\
    filename (fst wheel) =
      (dist_info_basename Sample.args ++ "/WHEEL")%string /\
    snd wheel =
      encode (wheel_contents Sample.args "py3-none-manylinux2014_x86_64").
Proof.
  apply (dist_info_last Sample.clock 33188 Sample.args "Hello" "linux"
           "manylinux2014_x86_64" Sample.w0 (snd Sample.linux)).
  - vm_compute. reflexivity.
  - reflexivity.
  - repeat constructor.
Defined.

(** ** Writes that fail *)

Lemma modify_entry_missing n f es :
  lookup n es = None -> modify_entry n f es = Raise FileNotFoundError.
Proof.
  induction es as [|[m y] es IH]; [reflexivity|].
  rewrite lookup_cons. simpl. destruct (m =? n); [discriminate|].
  intros H. now rewrite (IH H).
Qed.

Lemma modify_entry_raise n f es x e :
  lookup n es = Some x -> f x = Raise e -> modify_entry n f es = Raise e.
Proof.
  intros Hl Hf. induction es as [|[m y] es IH]; [discriminate|].
  rewrite lookup_cons in Hl. simpl. destruct (m =? n).
  - injection Hl as ->. now rewrite Hf.
  - now rewrite (IH Hl).
Qed.

(** A failure below a directory that exists is the failure of the whole
    write. *)
Lemma in_dir_raise op e :
  forall pre rest es d,
    get_dir pre es = Some d ->
    in_dir rest op d = Raise e ->
    in_dir (pre ++ rest) op es = Raise e.
Proof.
  induction pre as [|p0 pre IH]; intros rest es d Hd Hr.
  - injection Hd as ->. exact Hr.
  - cbn [get_dir] in Hd.
    destruct (lookup p0 es) as [[?|sub]|] eqn:El; try discriminate.
    cbn [app in_dir]. apply (modify_entry_raise _ _ _ _ _ El).
    now rewrite (IH _ _ _ Hd Hr).
Qed.

Section KeepErrors.
Variable clock : nat -> Z.
Variable file_mode : Z.
Variable args : Namespace.
Variable README : string.

Local Abbreviation run := (build clock file_mode args README).

Lemma keep_step_raise plat plat_tag w e w1 :
  keep_step clock file_mode plat w = (Raise e, w1) ->
  run plat plat_tag w = (Raise e, w1).
Proof. intros H. unfold build. now apply bind_Raise. Qed.

Lemma keep_step_touch_raise plat w py e :
  plat = "linux" \/ plat = "macos" ->
  glob ["lilypond-binaries"; "lib"] "python" (fs w) = [py] ->
  in_dir ["lilypond-binaries"; "lib"; py; "lib-dynload"]
    (fun es => Ok (touch_entry file_mode (clock (ticks w)) ".keep" es)) (fs w)
  = Raise e ->
  keep_step clock file_mode plat w = (Raise e, w).
Proof.
  intros Hp Hg Hr. unfold keep_step.
  assert (E : (plat =? "linux") || (plat =? "macos") = true)
    by (destruct Hp as [-> | ->]; reflexivity).
  rewrite E. unfold fs_read at 1. unfold bind at 1. rewrite Hg.
  cbn [List.length Nat.eqb assert nth]. unfold ret at 1. unfold bind at 1.
  unfold touch, fs_write. now rewrite Hr.
Qed.

(** X11. On linux and macos, when the one entry [python*] of
    [lilypond-binaries/lib] is a regular file, the assertion passes and the
    build raises [NotADirectoryError] at [touch], the tree untouched. *)
Theorem python_entry_not_directory plat plat_tag w py lib st data :
  plat = "linux" \/ plat = "macos" ->
  glob ["lilypond-binaries"; "lib"] "python" (fs w) = [py] ->
  get_dir ["lilypond-binaries"; "lib"] (fs w) = Some lib ->
  lookup py lib = Some (File st data) ->
  run plat plat_tag w = (Raise NotADirectoryError, w).
Proof.
  intros Hp Hg Hd Hl. apply keep_step_raise.
  apply (keep_step_touch_raise plat w py _ Hp Hg).
  apply (in_dir_raise _ _ ["lilypond-binaries"; "lib"] [py; "lib-dynload"]
           (fs w) lib Hd).
  cbn [in_dir]. now apply (modify_entry_raise _ _ _ _ _ Hl).
Qed.

(** X12. On linux and macos, when the one directory [python*] has no
    entry [lib-dynload], the build raises [FileNotFoundError] at [touch],
    the tree untouched: the directory is not created. *)
Theorem lib_dynload_missing plat plat_tag w py pydir :
  plat = "linux" \/ plat = "macos" ->
  glob ["lilypond-binaries"; "lib"] "python" (fs w) = [py] ->
  get_dir ["lilypond-binaries"; "lib"; py] (fs w) = Some pydir ->
  lookup "lib-dynload" pydir = None ->
  run plat plat_tag w = (Raise FileNotFoundError, w).
Proof.
  intros Hp Hg Hd Hl. apply keep_step_raise.
  apply (keep_step_touch_raise plat w py _ Hp Hg).
  apply (in_dir_raise _ _ ["lilypond-binaries"; "lib"; py] ["lib-dynload"]
           (fs w) pydir Hd).
  cbn [in_dir]. now apply modify_entry_missing.
Qed.
End KeepErrors.

Lemma python_entry_not_directory_witness :
  Cases.run "linux" "manylinux2014_x86_64" Cases.python_file =
  (Raise NotADirectoryError, Cases.python_file).
Proof.
  apply (python_entry_not_directory Sample.clock 33188 Sample.args "Hello"
           "linux" "manylinux2014_x86_64" Cases.python_file "python.txt"
           [("python.txt", File Sample.st0 [])] Sample.st0 []).
  - left. reflexivity.
  - reflexivity.
  - reflexivity.
  - reflexivity.
Defined.

Lemma lib_dynload_missing_witness :
  Cases.run "macos" "macosx_10_15_x86_64" Cases.no_dynload =
  (Raise FileNotFoundError, Cases.no_dynload).
Proof.
  apply (lib_dynload_missing Sample.clock 33188 Sample.args "Hello"
           "macos" "macosx_10_15_x86_64" Cases.no_dynload "python3.10" []).
  - right. reflexivity.
  - reflexivity.
  - reflexivity.
  - reflexivity.
Defined.

(** ** The three builds of the script *)

Lemma append_inj p a b : (p ++ a = p ++ b)%string -> a = b.
Proof.
  induction p as [|c p IH]; simpl; [auto|].
  intros H. injection H as H. auto.
Qed.

Section ScriptFacts.
Variable clock : nat -> Z.
Variable file_mode : Z.
Variable args : Namespace.
Variable README : string.
Variable unpacked : string -> dir.




End ScriptFacts.

Example sample_script_wheels :
  fst sample_script = Ok tt /\
  map fst (written (snd sample_script)) =
  ["lilypond-2.24.3-1-py3-none-manylinux2014_x86_64.whl";
   "lilypond-2.24.3-1-py3-none-win_amd64.whl";
   "lilypond-2.24.3-1-py3-none-macosx_10_15_x86_64.whl"]%string.
Proof. vm_compute. split; reflexivity. Qed.

(** ** The clock *)






















Section Time.
Variable file_mode : Z.
Variable args : Namespace.
Variable README : string.



End Time.

(** The time stamps of the small run: the five files the build writes carry
    the times of its writes, the others the times they had. *)
Example sample_time_stamps :
  map (fun f => map (fun m : member => (filename (fst m), date_time (fst m)))
                    (snd f))
      (written (snd Sample.linux)) =
  [[("lilypond-binaries/bin/lilypond", 1000);
    ("lilypond-binaries/share/a-b", 1000);
    ("lilypond-binaries/share/a/b", 1000);
    ("lilypond.py", 2004);
    ("lilypond-binaries/lib/libfoo", 1000);
    ("lilypond-binaries/lib/python3.10/lib-dynload/.keep", 2000);
    ("lilypond-binaries/lib/python3.10/os.py", 1000);
    ("lilypond-2.24.3.dist-info/METADATA", 2002);
    ("lilypond-2.24.3.dist-info/RECORD", 2005);
    ("lilypond-2.24.3.dist-info/WHEEL", 2003)]]%string%Z.
Proof. vm_compute. reflexivity. Qed.

(** ** The files of the tree are kept *)

Lemma walk_node_entries pre es i :
  In i (walk_node pre (Dir es)) <->
  exists e, In e es /\ In i (entry_items pre e).
Proof.
  rewrite walk_node_Dir, in_app_iff, !in_flat_map. unfold entry_items. split.
  - intros [([n y] & He & Hi)|([n y] & He & Hi)]; exists (n, y);
      cbn [fst snd] in *; (split; [exact He|]).
    + destruct y; [exact Hi | destruct Hi].
    + destruct y; [destruct Hi | exact Hi].
  - intros ([n y] & He & Hi). cbn [fst snd] in Hi.
    destruct y as [st data|sub].
    + left. now exists (n, File st data).
    + right. now exists (n, Dir sub).
Qed.

Lemma modify_entry_shape n f es es' :
  modify_entry n f es = Ok es' ->
  exists l1 x x' l2,
    es = l1 ++ (n, x) :: l2 /\ es' = l1 ++ (n, x') :: l2 /\ f x = Ok x'.
Proof.
  revert es'. induction es as [|[m y] es IH]; intros es' H; simpl in H.
  - discriminate.
  - destruct (String.eqb_spec m n) as [->|_].
    + apply rbind_Ok in H as (x' & Hx & H). injection H as <-.
      now exists [], y, x', es.
    + apply rbind_Ok in H as (r & Hr & H). injection H as <-.
      destruct (IH r Hr) as (l1 & x & x' & l2 & -> & -> & Hf).
      now exists ((m, y) :: l1), x, x', l2.
Qed.

Lemma write_entry_shape mode t n data es es' :
  write_entry mode t n data es = Ok es' ->
  (exists l1 st0 d0 l2 st',
      es = l1 ++ (n, File st0 d0) :: l2 /\
      es' = l1 ++ (n, File st' data) :: l2) \/
  (exists st', es' = es ++ [(n, File st' data)]).
Proof.
  revert es'. induction es as [|[m y] es IH]; intros es' H; simpl in H.
  - injection H as <-. right. eexists. reflexivity.
  - destruct (String.eqb_spec m n) as [->|_].
    + destruct y as [st0 d0|sub]; [|discriminate]. injection H as <-.
      left. now exists [], st0, d0, es, {| st_mode := st_mode st0; st_mtime := t |}.
    + apply rbind_Ok in H as (r & Hr & H). injection H as <-.
      destruct (IH r Hr) as [(l1 & st0 & d0 & l2 & st' & -> & ->)|(st' & ->)].
      * left. now exists ((m, y) :: l1), st0, d0, l2, st'.
      * right. now exists st'.
Qed.

Lemma touch_entry_shape mode t n es :
  (exists l1 x x' l2,
      es = l1 ++ (n, x) :: l2 /\
      touch_entry mode t n es = l1 ++ (n, x') :: l2 /\
      (x' = x \/ exists st0 d0 st', x = File st0 d0 /\ x' = File st' d0)) \/
  (exists st', touch_entry mode t n es = es ++ [(n, File st' [])]).
Proof.
  induction es as [|[m y] es IH]; simpl.
  - right. eexists. reflexivity.
  - destruct (String.eqb_spec m n) as [->|_].
    + left. destruct y as [st0 d0|sub].
      * exists [], (File st0 d0), (File {| st_mode := st_mode st0; st_mtime := t |} d0), es.
        repeat split. right. eauto.
      * exists [], (Dir sub), (Dir sub), es. repeat split. now left.
    + destruct IH as [(l1 & x & x' & l2 & -> & -> & Hx)|(st' & ->)].
      * left. now exists ((m, y) :: l1), x, x', l2.
      * right. now exists st'.
Qed.

(** Replacing one entry keeps what the walk meets through the others. *)
Lemma walk_replace pre l1 e e' l2 i :
  In i (walk_node pre (Dir (l1 ++ e :: l2))) ->
  (In i (entry_items pre e) -> In i (entry_items pre e')) ->
  In i (walk_node pre (Dir (l1 ++ e' :: l2))).
Proof.
  rewrite !walk_node_entries. intros (x & Hx & Hi) He.
  apply in_app_or in Hx as [Hx|[<-|Hx]].
  - exists x. split; [apply in_or_app; now left | exact Hi].
  - exists e'. split; [apply in_or_app; right; now left | now apply He].
  - exists x. split; [apply in_or_app; right; now right | exact Hi].
Qed.

Lemma walk_append pre es e i :
  In i (walk_node pre (Dir es)) -> In i (walk_node pre (Dir (es ++ [e]))).
Proof.
  rewrite !walk_node_entries. intros (x & Hx & Hi).
  exists x. split; [apply in_or_app; now left | exact Hi].
Qed.

(** Writing the file [name] keeps every other file. *)
Lemma walk_write_entry pre mode t name data es es' p st d :
  write_entry mode t name data es = Ok es' ->
  In (p, st, d) (walk_node pre (Dir es)) ->
  p <> pre ++ [name] ->
  In (p, st, d) (walk_node pre (Dir es')).
Proof.
  intros H Hin Hp.
  apply write_entry_shape in H
    as [(l1 & st0 & d0 & l2 & st' & -> & ->)|(st' & ->)].
  - apply (walk_replace _ _ _ _ _ _ Hin). unfold entry_items. cbn [fst snd].
    intros [E|[]]. injection E as E _ _. congruence.
  - now apply walk_append.
Qed.

Lemma walk_touch_entry pre mode t name es p st d :
  In (p, st, d) (walk_node pre (Dir es)) ->
  p <> pre ++ [name] ->
  In (p, st, d) (walk_node pre (Dir (touch_entry mode t name es))).
Proof.
  intros Hin Hp.
  destruct (touch_entry_shape mode t name es)
    as [(l1 & x & x' & l2 & E & -> & Hx)|(st' & ->)].
  - rewrite E in Hin. apply (walk_replace _ _ _ _ _ _ Hin).
    destruct Hx as [->|(st0 & d0 & st' & -> & ->)]; [auto|].
    unfold entry_items. cbn [fst snd].
    intros [E'|[]]. injection E' as E' _ _. congruence.
  - now apply walk_append.
Qed.

(** Touching [name] in the directory at [path] keeps every other file. *)
Lemma walk_in_dir_touch mode t name p st d :
  forall path pre es es',
    in_dir path (fun e => Ok (touch_entry mode t name e)) es = Ok es' ->
    In (p, st, d) (walk_node pre (Dir es)) ->
    p <> pre ++ path ++ [name] ->
    In (p, st, d) (walk_node pre (Dir es')).
Proof.
  induction path as [|d0 path IH]; intros pre es es' H Hin Hp.
  - cbn in H. injection H as <-. now apply walk_touch_entry.
  - cbn [in_dir] in H.
    apply modify_entry_shape in H as (l1 & x & x' & l2 & -> & -> & Hf).
    apply (walk_replace _ _ _ _ _ _ Hin).
    destruct x as [st0 data0|sub]; [discriminate|].
    apply rbind_Ok in Hf as (sub' & Hsub & Hf). injection Hf as <-.
    unfold entry_items. cbn [fst snd]. intros Hi.
    apply (IH _ _ _ Hsub Hi).
    rewrite <- app_assoc. exact Hp.
Qed.

Section Kept.
Variable clock : nat -> Z.
Variable file_mode : Z.
Variable args : Namespace.
Variable README : string.

(** X15. Every file of the unpacked tree, a [lilypond.py] at the root and
    files named [.keep] apart, is a member of the archive under its relative
    path, with its own bytes, time stamp and mode bits. *)
Theorem source_files_archived plat plat_tag w w' p st data :
  build clock file_mode args README plat plat_tag w = (Ok tt, w') ->
  In (p, st, data) (walk (fs w)) ->
  p <> ["lilypond.py"] ->
  last p "" <> ".keep" ->
  exists members,
    written w' =
      written w ++ [(wheel_file args ("py3-none-" ++ plat_tag), members)] /\
    In ({| filename := join p;
           date_time := st_mtime st;
           external_attr := Z.shiftl (Z.land (st_mode st) 0xFFFF) 16;
           file_size := List.length data |}, data) members.
Proof.
  intros H Hin Hp Hk.
  apply build_shape in H as (w1 & stM & stW & es5 & st6 & H). cbn zeta in H.
  destruct H as (Hkeep & _ & E5 & ->).
  eexists. split; [reflexivity|].
  apply ordered_In, in_or_app. left.
  unfold collect_members. apply in_map_iff. exists (p, st, data).
  split; [reflexivity|]. unfold walk in *.
  apply (walk_write_entry [] _ _ _ _ _ _ _ _ _ E5); [|exact Hp].
  apply walk_append.
  apply keep_step_inv in Hkeep as [[_ ->]|[_ (py & es1 & _ & Hin1 & ->)]];
    [exact Hin|].
  cbn [fs]. apply (walk_in_dir_touch _ _ _ _ _ _ _ [] _ _ Hin1 Hin).
  cbn [app]. intros ->. apply Hk. reflexivity.
Qed.
End Kept.

Lemma source_files_archived_witness :
  exists members,
    written (snd Sample.linux) =
      written Sample.w0 ++
      [(wheel_file Sample.args "py3-none-manylinux2014_x86_64", members)] /\
    In ({| filename := join ["lilypond-binaries"; "bin"; "lilypond"];
           date_time := st_mtime Sample.st0;
           external_attr := Z.shiftl (Z.land (st_mode Sample.st0) 0xFFFF) 16;
           file_size := List.length (encode "ELF") |}, encode "ELF") members.
Proof.
  apply (source_files_archived Sample.clock 33188 Sample.args "Hello" "linux"
           "manylinux2014_x86_64" Sample.w0 (snd Sample.linux)
           ["lilypond-binaries"; "bin"; "lilypond"] Sample.st0 (encode "ELF")).
  - vm_compute. reflexivity.
  - vm_compute. auto.
  - discriminate.
  - simpl. discriminate.
Defined.

(** ** Names of the members *)

Lemma distinct_NoDup l : distinct l = true <-> NoDup l.
Proof.
  induction l as [|x l IH]; simpl.
  - split; [constructor | reflexivity].
  - rewrite andb_true_iff, negb_true_iff, IH, NoDup_cons_iff.
    assert (E : existsb (String.eqb x) l = false <-> ~ In x l).
    { rewrite <- not_true_iff_false, existsb_exists. split.
      - intros H Hin. apply H. exists x. split; [exact Hin|].
        apply String.eqb_refl.
      - intros H (y & Hy & Exy). apply String.eqb_eq in Exy. now subst. }
    now rewrite E.
Qed.

Lemma wf_Dir es :
  wf (Dir es) = true <->
  NoDup (map fst es) /\
  Forall (fun e => valid_name (fst e) = true /\ wf (snd e) = true) es.
Proof.
  cbn [wf]. rewrite andb_true_iff, distinct_NoDup, forallb_forall, Forall_forall.
  split; intros [H1 H2]; (split; [exact H1|]); intros e He;
    specialize (H2 e He); now apply andb_true_iff.
Qed.

Lemma wf_replace l1 n x x' l2 :
  wf (Dir (l1 ++ (n, x) :: l2)) = true -> wf x' = true ->
  wf (Dir (l1 ++ (n, x') :: l2)) = true.
Proof.
  rewrite !wf_Dir, !map_app, !Forall_app. cbn [map fst].
  intros (Hn & H1 & H2) Hx. inversion H2 as [|? ? [Hv _] H2']; subst.
  repeat split; try assumption. constructor; [now split | assumption].
Qed.

Lemma wf_append es n x :
  wf (Dir es) = true -> lookup n es = None ->
  valid_name n = true -> wf x = true ->
  wf (Dir (es ++ [(n, x)])) = true.
Proof.
  rewrite !wf_Dir, map_app, Forall_app. cbn [map fst].
  intros (Hn & H) Hl Hv Hx. apply lookup_None in Hl. split.
  - apply NoDup_app; [exact Hn | repeat constructor; intros [] |].
    intros a Ha [<-|[]]. contradiction.
  - split; [exact H | now repeat constructor].
Qed.

Lemma write_entry_fresh mode t n data es :
  lookup n es = None ->
  write_entry mode t n data es =
  Ok (es ++ [(n, File {| st_mode := mode; st_mtime := t |} data)]).
Proof.
  induction es as [|[m y] es IH]; [reflexivity|].
  rewrite lookup_cons. simpl. destruct (m =? n); [discriminate|].
  intros H. now rewrite (IH H).
Qed.

Lemma write_entry_found mode t n data es x :
  lookup n es = Some x ->
  match x with
  | File st0 d0 =>
      exists l1 l2,
        es = l1 ++ (n, x) :: l2 /\
        write_entry mode t n data es =
        Ok (l1 ++ (n, File {| st_mode := st_mode st0; st_mtime := t |} data)
               :: l2)
  | Dir _ => write_entry mode t n data es = Raise IsADirectoryError
  end.
Proof.
  induction es as [|[m y] es IH]; [discriminate|].
  rewrite lookup_cons. simpl. destruct (String.eqb_spec m n) as [->|Hm].
  - intros H. injection H as ->. destruct x as [st0 d0|sub]; [|reflexivity].
    now exists [], es.
  - intros H. specialize (IH H). destruct x as [st0 d0|sub].
    + destruct IH as (l1 & l2 & -> & ->). now exists ((m, y) :: l1), l2.
    + now rewrite IH.
Qed.

Lemma write_entry_wf mode t n data es es' :
  write_entry mode t n data es = Ok es' ->
  valid_name n = true -> wf (Dir es) = true -> wf (Dir es') = true.
Proof.
  intros H Hv Hw.
  destruct (lookup n es) as [x|] eqn:El.
  - pose proof (write_entry_found mode t n data es x El) as Hf.
    destruct x as [st0 d0|sub]; [|congruence].
    destruct Hf as (l1 & l2 & -> & Hf). rewrite Hf in H. injection H as <-.
    now apply (wf_replace _ _ _ _ _ Hw).
  - rewrite (write_entry_fresh _ _ _ _ _ El) in H. injection H as <-.
    now apply wf_append.
Qed.

Lemma touch_entry_found mode t n es x :
  lookup n es = Some x ->
  exists l1 l2 x',
    es = l1 ++ (n, x) :: l2 /\
    touch_entry mode t n es = l1 ++ (n, x') :: l2 /\
    wf x' = wf x.
Proof.
  induction es as [|[m y] es IH]; [discriminate|].
  rewrite lookup_cons. simpl. destruct (String.eqb_spec m n) as [->|Hm].
  - intros H. injection H as ->. destruct x as [st0 d0|sub].
    + now exists [], es, (File {| st_mode := st_mode st0; st_mtime := t |} d0).
    + now exists [], es, (Dir sub).
  - intros H. destruct (IH H) as (l1 & l2 & x' & -> & -> & Hx).
    now exists ((m, y) :: l1), l2, x'.
Qed.

Lemma touch_entry_wf mode t n es :
  valid_name n = true -> wf (Dir es) = true ->
  wf (Dir (touch_entry mode t n es)) = true.
Proof.
  intros Hv Hw. destruct (lookup n es) as [x|] eqn:El.
  - destruct (touch_entry_found mode t n es x El)
      as (l1 & l2 & x' & -> & -> & Hx).
    apply (wf_replace _ _ _ _ _ Hw). rewrite Hx.
    apply wf_Dir in Hw as [_ Hw]. apply Forall_app in Hw as [_ Hw].
    inversion Hw as [|? ? [_ Hwx] _]. exact Hwx.
  - rewrite (touch_entry_fresh _ _ _ _ El). now apply wf_append.
Qed.

Lemma modify_entry_wf n f es es' :
  (forall x x', wf x = true -> f x = Ok x' -> wf x' = true) ->
  modify_entry n f es = Ok es' ->
  wf (Dir es) = true -> wf (Dir es') = true.
Proof.
  intros Hf H Hw.
  apply modify_entry_shape in H as (l1 & x & x' & l2 & -> & -> & Hx).
  apply (wf_replace _ _ _ _ _ Hw). apply (Hf x x'); [|exact Hx].
  apply wf_Dir in Hw as [_ Hw]. apply Forall_app in Hw as [_ Hw].
  inversion Hw as [|? ? [_ Hwx] _]. exact Hwx.
Qed.

Lemma in_dir_wf op :
  (forall d d', wf (Dir d) = true -> op d = Ok d' -> wf (Dir d') = true) ->
  forall path es es',
    in_dir path op es = Ok es' ->
    wf (Dir es) = true -> wf (Dir es') = true.
Proof.
  intros Hop. induction path as [|d0 path IH]; intros es es' H Hw.
  - now apply (Hop es).
  - cbn [in_dir] in H. refine (modify_entry_wf _ _ _ _ _ H Hw).
    intros [st data|sub] x' Hx Hfx; [discriminate|].
    apply rbind_Ok in Hfx as (sub' & Hsub & Hfx). injection Hfx as <-.
    now apply (IH sub).
Qed.

Lemma Permutation_flat_map_app {A B} (f g : A -> list B) l :
  Permutation (flat_map f l ++ flat_map g l)
              (flat_map (fun x => f x ++ g x) l).
Proof.
  induction l as [|x l IH]; simpl; [constructor|].
  rewrite <- !app_assoc. apply Permutation_app_head.
  eapply Permutation_trans; [apply Permutation_app_swap_app|].
  now apply Permutation_app_head.
Qed.

Lemma walk_node_perm pre es :
  Permutation (walk_node pre (Dir es)) (flat_map (entry_items pre) es).
Proof.
  rewrite walk_node_Dir.
  eapply Permutation_trans; [apply Permutation_flat_map_app|].
  erewrite flat_map_ext; [reflexivity|].
  intros [n [st data|sub]]; reflexivity.
Qed.

Lemma NoDup_flat_map_keys {A B K} (key : A -> K) (F : A -> list B) l :
  NoDup (map key l) ->
  (forall x, In x l -> NoDup (F x)) ->
  (forall x y z, In x l -> In y l -> In z (F x) -> In z (F y) ->
                 key x = key y) ->
  NoDup (flat_map F l).
Proof.
  induction l as [|x l IH]; intros Hk HF Hd; simpl; [constructor|].
  cbn [map] in Hk. apply NoDup_cons_iff in Hk as [Hx Hk].
  apply NoDup_app.
  - apply HF. now left.
  - apply IH; [exact Hk | intros y Hy; apply HF; now right |].
    intros a b z Ha Hb. apply Hd; now right.
  - intros z Hz Hz'. apply in_flat_map in Hz' as (y & Hy & Hzy).
    apply Hx. rewrite (Hd x y z); [now apply in_map | now left | now right
                                   | exact Hz | exact Hzy].
Qed.

Lemma entry_items_path pre e i :
  In i (entry_items pre e) -> exists r, item_path i = pre ++ fst e :: r.
Proof.
  unfold entry_items. destruct e as [n [st data|sub]]; cbn [fst snd].
  - intros [<-|[]]. exists []. reflexivity.
  - destruct i as [[p st] data]. intros H.
    apply walk_node_path in H as (r & rest & ->).
    exists (r :: rest). cbn. now rewrite <- app_assoc.
Qed.

(** In a well-formed tree the walk meets no path twice. *)
Lemma walk_node_NoDup x : forall pre,
  wf x = true -> NoDup (map item_path (walk_node pre x)).
Proof.
  induction x as [st data|es IH] using node_induction; intros pre Hw;
    [constructor|].
  apply (Permutation_NoDup
           (Permutation_map item_path (Permutation_sym (walk_node_perm pre es)))).
  rewrite map_flat_map. apply wf_Dir in Hw as [Hn Hw].
  rewrite Forall_forall in IH, Hw.
  apply (NoDup_flat_map_keys fst); [exact Hn | |].
  - intros [n [st data|sub]] He; unfold entry_items; cbn [fst snd map].
    + repeat constructor. intros [].
    + apply (IH _ He). now apply (Hw _ He).
  - intros a b z Ha Hb Hza Hzb.
    apply in_map_iff in Hza as (i & <- & Hi).
    apply in_map_iff in Hzb as (j & Hj & Hj').
    apply entry_items_path in Hi as (r & Hi).
    apply entry_items_path in Hj' as (r' & Hj').
    rewrite Hj, Hi in Hj'. apply app_inv_head in Hj'. now injection Hj'.
Qed.

(** In a well-formed tree the paths of the walk are made of valid names. *)
Lemma walk_node_valid x : forall pre p st data,
  wf x = true ->
  In (p, st, data) (walk_node pre x) ->
  exists r rest, p = pre ++ r :: rest /\
                 Forall (fun n => valid_name n = true) (r :: rest).
Proof.
  induction x as [st0 d0|es IH] using node_induction;
    intros pre p st data Hw Hin; [destruct Hin|].
  apply walk_node_entries in Hin as ([n y] & He & Hi).
  apply wf_Dir in Hw as [_ Hw]. rewrite Forall_forall in IH, Hw.
  destruct (Hw _ He) as [Hv Hy]. cbn [fst snd] in *.
  unfold entry_items in Hi. cbn [fst snd] in Hi.
  destruct y as [st1 d1|sub].
  - destruct Hi as [E|[]]. injection E as <- _ _.
    exists n, []. split; [reflexivity | now repeat constructor].
  - destruct (IH _ He _ _ _ _ Hy Hi) as (r & rest & -> & Hr).
    exists n, (r :: rest). rewrite <- app_assoc. split; [reflexivity|].
    now constructor.
Qed.

Lemma parts_join p :
  Forall (fun n => valid_name n = true) p -> p <> [] -> parts (join p) = p.
Proof.
  induction 1 as [|n p Hn Hp IH]; intros Hne; [congruence|].
  destruct p as [|r p]; [now apply parts_name|].
  rewrite (parts_join_cons _ _ _ Hn). f_equal. now apply IH.
Qed.

Lemma join_inj p q :
  Forall (fun n => valid_name n = true) p -> p <> [] ->
  Forall (fun n => valid_name n = true) q -> q <> [] ->
  join p = join q -> p = q.
Proof.
  intros Hp Hp' Hq Hq' E.
  now rewrite <- (parts_join p Hp Hp'), <- (parts_join q Hq Hq'), E.
Qed.

(** In a well-formed tree the members of the walk have different names. *)
Lemma collect_members_NoDup es :
  wf (Dir es) = true ->
  NoDup (map (fun m : member => filename (fst m)) (collect_members es)).
Proof.
  intros Hw. unfold collect_members, walk. rewrite map_map.
  erewrite map_ext with (g := fun i => join (item_path i))
    by (now intros [[p st] data]).
  rewrite <- map_map with (f := item_path) (g := join).
  apply NoDup_map_NoDup_ForallPairs; [|now apply walk_node_NoDup].
  intros p q Hp Hq E.
  apply in_map_iff in Hp as ([[p' st] data] & <- & Hp).
  apply in_map_iff in Hq as ([[q' st'] data'] & <- & Hq).
  apply (walk_node_valid _ _ _ _ _ Hw) in Hp as (r & rest & -> & Hr).
  apply (walk_node_valid _ _ _ _ _ Hw) in Hq as (r' & rest' & -> & Hr').
  cbn [item_path fst app] in *. apply join_inj; try assumption; discriminate.
Qed.

Section Unique.
Variable clock : nat -> Z.
Variable file_mode : Z.
Variable args : Namespace.
Variable README : string.

Local Abbreviation dist := (dist_info_basename args).
Local Abbreviation fname := (fun ic : member => filename (fst ic)).

Lemma keep_step_wf plat w w1 :
  keep_step clock file_mode plat w = (Ok tt, w1) ->
  wf (Dir (fs w)) = true -> wf (Dir (fs w1)) = true.
Proof.
  intros H Hw.
  apply keep_step_inv in H as [[_ ->]|[_ (py & es1 & _ & H & ->)]];
    [exact Hw|].
  cbn [fs]. refine (in_dir_wf _ _ _ _ _ H Hw).
  intros d d' Hd E. injection E as <-. now apply touch_entry_wf.
Qed.

Lemma prio_filename m m' :
  filename (fst m) = filename (fst m') -> prio args m = prio args m'.
Proof. destruct m as [i c], m' as [i' c']. cbn. now intros ->. Qed.

(** X16. Over a well-formed tree and with a version without separator, no
    two members of the archive have the same name; RECORD has one row for
    each member but itself, and none for itself. *)
Theorem member_names_unique plat plat_tag w w' :
  build clock file_mode args README plat plat_tag w = (Ok tt, w') ->
  no_slash (version args) = true ->
  wf (Dir (fs w)) = true ->
  exists members walked record,
    written w' =
      written w ++ [(wheel_file args ("py3-none-" ++ plat_tag), members)] /\
    Permutation (walked ++ [record]) members /\
    snd record = encode (writerows (map manifest_entry walked)) /\
    filename (fst record) = (dist ++ "/RECORD")%string /\
    NoDup (map fname walked) /\
    ~ In (filename (fst record)) (map fname walked) /\
    NoDup (map fname members).
Proof.
  intros H Hv Hw.
  apply build_shape in H as (w1 & stM & stW & es5 & st6 & H). cbn zeta in H.
  destruct H as (Hk & Hnone & E5 & ->).
  pose proof (dist_valid args Hv) as Hd.
  set (D := [("METADATA", File stM (encode (metadata_contents args README)));
             ("WHEEL",
              File stW (encode (wheel_contents args ("py3-none-" ++ plat_tag))))])
    in *.
  assert (Hw5 : wf (Dir es5) = true).
  { apply (write_entry_wf _ _ _ _ _ _ E5); [reflexivity|].
    apply wf_append; [now apply (keep_step_wf _ _ _ Hk) | exact Hnone
                      | exact Hd | reflexivity]. }
  assert (Hval : Forall (fun e => valid_name (fst e) = true) es5).
  { apply wf_Dir in Hw5 as [_ Hw5]. eapply Forall_impl; [|exact Hw5].
    now intros e [He _]. }
  assert (Hf : filter (fun e => fst e =? dist) es5 = [(dist, Dir D)]).
  { rewrite (write_entry_filter _ _ _ _ _ _ dist E5) by reflexivity.
    rewrite filter_app, (lookup_None_filter _ _ Hnone). cbn [filter fst app].
    now rewrite String.eqb_refl. }
  pose proof (dist_members args es5 D Hd Hval Hf) as Hm.
  cbn [walk_node D flat_map fst snd app map filter] in Hm.
  rewrite !(prio_head args dist _ _ _ Hd Hd), String.eqb_refl in Hm.
  set (data := encode (writerows (collect_record_tuples es5))).
  set (rec := (from_file [dist; "RECORD"] st6 data, data)).
  assert (Hrec : ~ In (fname rec) (map fname (collect_members es5))).
  { intros Hin. apply in_map_iff in Hin as (m & Em & Hin).
    assert (Hp : (prio args m =? 2)%nat = true).
    { rewrite (prio_filename m rec Em). unfold rec.
      now rewrite (prio_head args dist _ _ _ Hd Hd), String.eqb_refl. }
    assert (Hin2 : In m (filter (fun m => (prio args m =? 2)%nat)
                           (collect_members es5)))
      by (apply filter_In; now split).
    rewrite Hm in Hin2. unfold rec in Em. cbn [fst from_file filename join] in Em.
    destruct Hin2 as [<-|[<-|[]]]; cbn [fst from_file filename join] in Em;
      apply append_inj in Em; discriminate Em. }
  assert (Hall : NoDup (map fname (collect_members es5 ++ [rec]))).
  { rewrite map_app. apply NoDup_app.
    - now apply collect_members_NoDup.
    - repeat constructor. intros [].
    - intros a Ha [<-|[]]. now apply Hrec. }
  exists (ordered args (collect_members es5 ++ [rec])),
         (collect_members es5), rec.
  assert (P : Permutation (collect_members es5 ++ [rec])
                          (ordered args (collect_members es5 ++ [rec]))).
  { unfold ordered. eapply Permutation_trans;
      [apply (sort_perm String.leb fname) | apply (sort_perm Nat.leb (prio args))]. }
  split; [reflexivity|]. split; [exact P|].
  split; [unfold rec, data; cbn [snd];
          now rewrite collect_record_tuples_entries|].
  split; [reflexivity|].
  split; [now apply collect_members_NoDup|].
  split; [exact Hrec|].
  apply (Permutation_NoDup (Permutation_map fname P) Hall).
Qed.
End Unique.

Lemma member_names_unique_witness :
  exists members walked record,
    written (snd Sample.linux) =
      written Sample.w0 ++
      [(wheel_file Sample.args "py3-none-manylinux2014_x86_64", members)] /\
    Permutation (walked ++ [record]) members /\
    snd record = encode (writerows (map manifest_entry walked)) /\
    filename (fst record) =
      (dist_info_basename Sample.args ++ "/RECORD")%string /\
    NoDup (map (fun ic : member => filename (fst ic)) walked) /\
    ~ In (filename (fst record))
         (map (fun ic : member => filename (fst ic)) walked) /\
    NoDup (map (fun ic : member => filename (fst ic)) members).
Proof.
  apply (member_names_unique Sample.clock 33188 Sample.args "Hello" "linux"
           "manylinux2014_x86_64" Sample.w0 (snd Sample.linux)).
  - vm_compute. reflexivity.
  - reflexivity.
  - reflexivity.
Defined.

(** ** The buckets, by path components *)

Lemma length_append a b :
  String.length (a ++ b) = (String.length a + String.length b)%nat.
Proof. induction a as [|c a IH]; simpl; [reflexivity | now rewrite IH]. Qed.

Section Buckets.
Variable clock : nat -> Z.
Variable file_mode : Z.
Variable args : Namespace.
Variable README : string.

Local Abbreviation dist := (dist_info_basename args).

Lemma dist_not_binaries : (dist =? "lilypond-binaries") = false.
Proof.
  apply String.eqb_neq. unfold dist_info_basename. intros E.
  apply (append_inj "lilypond-" _ "binaries") in E.
  apply (f_equal String.length) in E. rewrite length_append in E.
  cbn in E. lia.
Qed.

Lemma prio_parts p st data :
  prio args (from_file p st data, data) =
  if is_prefix (parts dist) (parts (join p)) then 2%nat
  else if is_prefix ["lilypond-binaries"; "lib"] (parts (join p)) then 1%nat
  else 0%nat.
Proof. reflexivity. Qed.

(** X17. The bucket of a member goes by the components of its path: 2 when
    the first is the dist-info directory, else 1 when the first two are
    [lilypond-binaries] and [lib], else 0; a name that only starts with
    [lib], as [lilypond-binaries/libfoo], is in bucket 0. *)
Theorem prio_by_components p st data :
  no_slash (version args) = true ->
  Forall (fun n => valid_name n = true) p -> p <> [] ->
  prio args (from_file p st data, data) =
  if is_prefix [dist] p then 2%nat
  else if is_prefix ["lilypond-binaries"; "lib"] p then 1%nat
  else 0%nat.
Proof.
  intros Hv Hp Hne.
  now rewrite prio_parts, (parts_join p Hp Hne),
    (parts_name _ (dist_valid args Hv)).
Qed.

(** X18. The purpose stated at lines 136 to 138: in the archive every file
    under [lilypond-binaries/share] comes before every file under
    [lilypond-binaries/lib]. *)
Theorem share_before_lib plat plat_tag w w' :
  build clock file_mode args README plat plat_tag w = (Ok tt, w') ->
  no_slash (version args) = true ->
  exists members,
    written w' =
      written w ++ [(wheel_file args ("py3-none-" ++ plat_tag), members)] /\
    forall i j a b pa pb,
      nth_error members i = Some a ->
      nth_error members j = Some b ->
      filename (fst a) = join ("lilypond-binaries" :: "share" :: pa) ->
      filename (fst b) = join ("lilypond-binaries" :: "lib" :: pb) ->
      Forall (fun n => valid_name n = true) pa ->
      Forall (fun n => valid_name n = true) pb ->
      (i < j)%nat.
Proof.
  intros H Hv.
  apply build_inv in H as (w1 & es2 & es3 & es4 & es5 & es6 & d6 & st & H).
  cbn zeta in H. destruct H as (_ & _ & _ & _ & _ & _ & _ & _ & ->).
  eexists. split; [reflexivity|].
  intros i j a b pa pb Ha Hb Ea Eb Hpa Hpb.
  assert (Pa : prio args a = 0%nat).
  { rewrite (prio_filename args a
               (from_file ("lilypond-binaries" :: "share" :: pa) st [], []))
      by exact Ea.
    rewrite prio_parts, parts_join, (parts_name _ (dist_valid args Hv));
      [| now repeat constructor | discriminate].
    cbn [is_prefix]. rewrite dist_not_binaries. reflexivity. }
  assert (Pb : prio args b = 1%nat).
  { rewrite (prio_filename args b
               (from_file ("lilypond-binaries" :: "lib" :: pb) st [], []))
      by exact Eb.
    rewrite prio_parts, parts_join, (parts_name _ (dist_valid args Hv));
      [| now repeat constructor | discriminate].
    cbn [is_prefix]. rewrite dist_not_binaries. reflexivity. }
  destruct (Nat.lt_trichotomy i j) as [Hij|[Hij|Hij]]; [exact Hij | |].
  - subst j. rewrite Ha in Hb. injection Hb as <-. lia.
  - destruct (StronglySorted_nth _ _ (ordered_sorted args _) j i b a Hij Hb Ha)
      as [Hle _].
    apply Nat.leb_le in Hle. lia.
Qed.
End Buckets.

(** ** The order does not depend on the walk *)

Section SortUnique.
Context {A K : Type} (le : K -> K -> bool) (key : A -> K).
Hypothesis le_antisym : forall a b, le a b = true -> le b a = true -> a = b.

(** Two sorted lists with the same elements, of different keys, are equal. *)
Lemma sorted_unique l1 : forall l2,
  StronglySorted (key_le le key) l1 ->
  StronglySorted (key_le le key) l2 ->
  Permutation l1 l2 ->
  NoDup (map key l1) ->
  l1 = l2.
Proof.
  induction l1 as [|x l1 IH]; intros l2 H1 H2 P Hn.
  - apply Permutation_nil in P. now subst.
  - destruct l2 as [|y l2];
      [apply Permutation_sym, Permutation_nil in P; discriminate|].
    inversion H1 as [|? ? H1' Hx]; subst.
    inversion H2 as [|? ? H2' Hy]; subst.
    cbn [map] in Hn. apply NoDup_cons_iff in Hn as [Hkx Hn].
    assert (E : x = y).
    { assert (Hxin : In x (y :: l2))
        by (apply (Permutation_in _ P); now left).
      assert (Hyin : In y (x :: l1))
        by (apply (Permutation_in _ (Permutation_sym P)); now left).
      destruct Hxin as [E|Hxin]; [now symmetry|].
      destruct Hyin as [E|Hyin]; [exact E|].
      rewrite Forall_forall in Hx, Hy. exfalso. apply Hkx.
      rewrite (le_antisym _ _ (Hx _ Hyin) (Hy _ Hxin)).
      now apply in_map. }
    subst y. f_equal. apply IH; try assumption.
    now apply Permutation_cons_inv in P.
Qed.
End SortUnique.

Section Order.
Variable args : Namespace.

Local Abbreviation fname := (fun ic : member => filename (fst ic)).

(** X19. The purpose stated at lines 131 to 133: the two sorts give the same
    sequence for every order in which the walk hands over the members, as long
    as their names differ. *)
Theorem ordered_permutation l1 l2 :
  Permutation l1 l2 ->
  NoDup (map fname l1) ->
  ordered args l1 = ordered args l2.
Proof.
  intros P Hn. unfold ordered. f_equal.
  apply (sorted_unique String.leb fname String.leb_antisym).
  - apply sort_sorted; [apply String.leb_total | apply string_leb_trans].
  - apply sort_sorted; [apply String.leb_total | apply string_leb_trans].
  - eapply Permutation_trans;
      [apply Permutation_sym, (sort_perm String.leb fname)|].
    eapply Permutation_trans; [exact P | apply (sort_perm String.leb fname)].
  - apply (Permutation_NoDup
             (Permutation_map fname (sort_perm String.leb fname l1)) Hn).
Qed.
End Order.

Section Rerun.
Variable clock : nat -> Z.
Variable file_mode : Z.
Variable args : Namespace.
Variable README : string.

Local Abbreviation dist := (dist_info_basename args).

(** A build returns only where the dist-info name is free, and leaves the
    directory behind. *)
Lemma build_dist_info plat plat_tag w w' :
  build clock file_mode args README plat plat_tag w = (Ok tt, w') ->
  lookup dist (fs w) = None /\ lookup dist (fs w') <> None.
Proof.
  intros H. split.
  - apply build_shape in H as (w1 & stM & stW & es5 & st6 & H). cbn zeta in H.
    destruct H as (Hk & Hnone & _).
    apply lookup_None in Hnone.
    rewrite (keep_step_names _ _ _ _ _ Hk) in Hnone.
    now apply lookup_None.
  - apply build_inv in H as (w1 & es2 & es3 & es4 & es5 & es6 & d6 & st & H).
    cbn zeta in H. destruct H as (_ & _ & _ & _ & _ & E6 & _ & _ & ->).
    cbn [fs in_dir] in *.
    apply modify_entry_lookup in E6 as (x & x' & _ & _ & ->). discriminate.
Qed.

(** X20. A build that returned cannot be run again over the tree it left,
    whatever the platform: the dist-info directory is in the way. *)
Theorem rerun_fails plat plat_tag w w' clock' plat' plat_tag' w'' :
  build clock file_mode args README plat plat_tag w = (Ok tt, w') ->
  build clock' file_mode args README plat' plat_tag' w' <> (Ok tt, w'').
Proof.
  intros H H'. apply build_dist_info in H as [_ H].
  apply H.
  apply build_shape in H' as (w1 & stM & stW & es5 & st6 & H'). cbn zeta in H'.
  destruct H' as (Hk & Hnone & _).
  apply lookup_None in Hnone.
  rewrite (keep_step_names _ _ _ _ _ Hk) in Hnone.
  now apply lookup_None.
Qed.
End Rerun.

Lemma prio_by_components_witness :
  prio Sample.args
       (from_file ["lilypond-binaries"; "libfoo"] Sample.st0 [], []) =
  if is_prefix [dist_info_basename Sample.args] ["lilypond-binaries"; "libfoo"]
  then 2%nat
  else if is_prefix ["lilypond-binaries"; "lib"] ["lilypond-binaries"; "libfoo"]
       then 1%nat
       else 0%nat.
Proof.
  apply (prio_by_components Sample.args ["lilypond-binaries"; "libfoo"]
           Sample.st0 []).
  - reflexivity.
  - repeat constructor.
  - discriminate.
Defined.

Lemma share_before_lib_witness :
  exists members,
    written (snd Sample.linux) =
      written Sample.w0 ++
      [(wheel_file Sample.args "py3-none-manylinux2014_x86_64", members)] /\
    forall i j a b pa pb,
      nth_error members i = Some a ->
      nth_error members j = Some b ->
      filename (fst a) = join ("lilypond-binaries" :: "share" :: pa) ->
      filename (fst b) = join ("lilypond-binaries" :: "lib" :: pb) ->
      Forall (fun n => valid_name n = true) pa ->
      Forall (fun n => valid_name n = true) pb ->
      (i < j)%nat.
Proof.
  apply (share_before_lib Sample.clock 33188 Sample.args "Hello" "linux"
           "manylinux2014_x86_64" Sample.w0 (snd Sample.linux)).
  - vm_compute. reflexivity.
  - reflexivity.
Defined.

Lemma ordered_permutation_witness :
  ordered Sample.args [Cases.member_b; Cases.member_a] =
  ordered Sample.args [Cases.member_a; Cases.member_b].
Proof.
  apply (ordered_permutation Sample.args).
  - apply perm_swap.
  - repeat constructor; simpl; intuition discriminate.
Defined.

Lemma rerun_fails_witness :
  Cases.run "windows" "win_amd64" (snd Sample.linux) <> (Ok tt, Cases.bare).
Proof.
  apply (rerun_fails Sample.clock 33188 Sample.args "Hello" "linux"
           "manylinux2014_x86_64" Sample.w0 (snd Sample.linux)).
  vm_compute. reflexivity.
Defined.
